(** * bitjira.py: the report aggregator

    A shallow embedding of [parse_pullrequests], [parse_pipelines] and
    [parse_result] of [bitjira.py], and the properties of the aggregation
    they implement.

    The aggregator receives three lists of JSON records (issues, pull
    requests, pipeline runs), as decoded by [response.json()], and returns a
    list of dicts, one per issue key.  Subscripting a dict with an absent key
    raises [KeyError]; this is the only failure mode the script has for a
    record with a missing field, so the embedding works in an error monad.
    [ReError] is the [re.error] of a pattern that does not compile. *)

From Stdlib Require Import List String Ascii ZArith Lia Bool DecimalString.
From Stdlib Require Import Permutation.
Import ListNotations.
Local Open Scope string_scope.
Local Open Scope Z_scope.
Local Open Scope list_scope.

(** ** Exceptions and the error monad *)

Inductive exn : Type :=
| KeyError (k : string)
| TypeError
| ReError.

Inductive result (A : Type) : Type :=
| Ok (a : A)
| Raise (e : exn).

Arguments Ok {A} a.
Arguments Raise {A} e.

Definition bind {A B : Type} (m : result A) (f : A -> result B) : result B :=
  match m with
  | Ok a => f a
  | Raise e => Raise e
  end.

Notation "x <- m ;; k" := (bind m (fun x => k))
  (at level 61, m at next level, right associativity).

(** A [for] loop whose body may raise: the first exception leaves the loop. *)
Fixpoint for_each {A S : Type} (body : S -> A -> result S) (xs : list A) (s : S)
  : result S :=
  match xs with
  | [] => Ok s
  | x :: xs' => s' <- body s x ;; for_each body xs' s'
  end.

(** ** Python dicts: insertion-ordered maps with string keys *)

Definition dict (V : Type) : Type := list (string * V).

Fixpoint dict_get {V : Type} (d : dict V) (k : string) : option V :=
  match d with
  | [] => None
  | (k', v) :: d' => if (k' =? k)%string then Some v else dict_get d' k
  end.

(** [d[k] = v]: an existing key keeps its position, a new key goes last. *)
Fixpoint dict_set {V : Type} (d : dict V) (k : string) (v : V) : dict V :=
  match d with
  | [] => [(k, v)]
  | (k', v') :: d' =>
      if (k' =? k)%string then (k', v) :: d' else (k', v') :: dict_set d' k v
  end.

Definition dict_keys {V : Type} (d : dict V) : list string := map fst d.
Definition dict_values {V : Type} (d : dict V) : list V := map snd d.

(** ** JSON values *)

#[local] Set Warnings "-register-all".

Inductive value : Type :=
| VNone
| VInt (n : Z)
| VStr (s : string)
| VList (l : list value)
| VDict (d : dict value).

(** [v[k]] for a string [k]: only a dict can be subscripted by a string. *)
Definition getitem (v : value) (k : string) : result value :=
  match v with
  | VDict d =>
      match dict_get d k with
      | Some x => Ok x
      | None => Raise (KeyError k)
      end
  | _ => Raise TypeError
  end.

(** [v[k1][k2]...]: the subscripts are applied from left to right. *)
Fixpoint getpath (v : value) (ks : list string) : result value :=
  match ks with
  | [] => Ok v
  | k :: ks' => x <- getitem v k ;; getpath x ks'
  end.

Definition as_str (v : value) : result string :=
  match v with
  | VStr s => Ok s
  | _ => Raise TypeError
  end.

Definition as_int (v : value) : result Z :=
  match v with
  | VInt n => Ok n
  | _ => Raise TypeError
  end.

(** ** Strings *)

(** [sub in s] *)
Fixpoint contains (sub s : string) : bool :=
  String.prefix sub s ||
  match s with
  | EmptyString => false
  | String _ s' => contains sub s'
  end.

(** [s.split(sep)] for a one-character separator. *)
Fixpoint split (sep : ascii) (s : string) : list string :=
  match s with
  | EmptyString => [EmptyString]
  | String c s' =>
      if Ascii.eqb c sep then EmptyString :: split sep s'
      else match split sep s' with
           | [] => [String c EmptyString]
           | w :: ws => String c w :: ws
           end
  end.

(** [branch.split("/")[-1]] *)
Definition last_segment (branch : string) : string :=
  last (split "/" branch) EmptyString.

(** [str(n)] for an int. *)
Definition str_of_int (n : Z) : string := NilZero.string_of_int (Z.to_int n).

(** [re.search] for a pattern without metacharacters other than [|]: the
    pattern is an alternation of literal strings, and it is found in [s] when
    one of the alternatives occurs in [s].  Issue keys such as [ABC-1] are
    made of letters, digits and [-], which are literal outside a character
    class. *)
Definition literal_search (pattern s : string) : bool :=
  existsb (fun alt => contains alt s) (split "|" pattern).

(** The characters that are not literal in a regular expression, [|]
    apart. *)
Definition metacharacters : string := ".^$*+?{}[]\()".

(** The pattern is an alternation of literal strings.  [re.compile] accepts
    every such pattern.  The engine of the examples accepts no other
    pattern: [re.compile] accepts some of those and refuses others, such as
    an unbalanced [(]. *)
Fixpoint literal_compiles (pattern : string) : bool :=
  match pattern with
  | EmptyString => true
  | String c pattern' =>
      negb (contains (String c EmptyString) metacharacters)
      && literal_compiles pattern'
  end.


(** ** The records of the result *)

(** [{"url": ..., "branch": ...}] *)
Record PullRequestEntry : Type := {
  pr_url : value;
  pr_branch : string
}.

(** [{"url": ..., "branch": ..., "build_number": ...}] *)
Record PipelineEntry : Type := {
  pl_url : string;
  pl_branch : string;
  pl_build_number : Z
}.

(** The dict built for one issue, lines 134-144.  It is never empty, so
    [results.get(key)] is truthy exactly when [key] is in [results]. *)
Record AggregatedResult : Type := {
  ar_id : string;
  ar_status : value;
  ar_type : value;
  ar_title : value;
  ar_reporter : value;
  ar_assignee : value;
  ar_jira_url : string;
  ar_pullrequests : list PullRequestEntry;
  ar_pipelines : list PipelineEntry
}.

Definition set_pullrequests (r : AggregatedResult) (prs : list PullRequestEntry)
  : AggregatedResult :=
  {| ar_id := ar_id r; ar_status := ar_status r; ar_type := ar_type r;
     ar_title := ar_title r; ar_reporter := ar_reporter r;
     ar_assignee := ar_assignee r; ar_jira_url := ar_jira_url r;
     ar_pullrequests := prs; ar_pipelines := ar_pipelines r |}.

Definition set_pipelines (r : AggregatedResult) (pls : list PipelineEntry)
  : AggregatedResult :=
  {| ar_id := ar_id r; ar_status := ar_status r; ar_type := ar_type r;
     ar_title := ar_title r; ar_reporter := ar_reporter r;
     ar_assignee := ar_assignee r; ar_jira_url := ar_jira_url r;
     ar_pullrequests := ar_pullrequests r; ar_pipelines := pls |}.

(** [filtered_pipelines] of lines 157-160, together with
    [last_build_number]. *)
Record Filtered : Type := {
  migrations : list PipelineEntry;
  regular_pr : list PipelineEntry;
  last_build_number : Z
}.

(** ** Well-formed input records

    The records of the three collections as the fetchers deliver them, with
    every field the aggregator reads present. *)

Record Issue : Type := {
  identifier : string;
  status : string;
  type : string;
  title : string;
  reporter : string;
  assignee : string
}.

Record PullRequest : Type := {
  pull_branch : string;
  pull_url : string
}.

Record PipelineRun : Type := {
  run_branch : string;
  run_build_number : Z
}.

Definition issue_json (i : Issue) : value :=
  VDict [("key", VStr (identifier i));
         ("fields", VDict [
            ("summary", VStr (title i));
            ("status", VDict [("name", VStr (status i))]);
            ("issuetype", VDict [("name", VStr (type i))]);
            ("reporter", VDict [("displayName", VStr (reporter i))]);
            ("assignee", VDict [("displayName", VStr (assignee i))])])].

Definition pullrequest_json (p : PullRequest) : value :=
  VDict [("source", VDict [("branch", VDict [("name", VStr (pull_branch p))])]);
         ("links", VDict [("html", VDict [("href", VStr (pull_url p))])])].

Definition pipeline_json (p : PipelineRun) : value :=
  VDict [("build_number", VInt (run_build_number p));
         ("target", VDict [("ref_name", VStr (run_branch p))])].

(** ** The aggregator *)

(** What the script takes from outside: the module constants read from the
    environment at import time, and the regular expression engine.
    [re_compiles pattern] tells whether [re.compile(pattern)] returns, rather
    than raising [re.error]; for a pattern that compiles,
    [re_search pattern s] is the truth value of
    [re.compile(pattern).search(s)].  The empty pattern compiles. *)
Record Env : Type := {
  JIRA_API_HOST : string;
  BITBUCKET_BASE_URL : string;
  re_search : string -> string -> bool;
  re_compiles : string -> bool;
  re_compiles_empty : re_compiles EmptyString = true
}.

Section Aggregator.

Variable env : Env.

(** Lines 89-102, the body of the loop of [parse_pipelines].  The build
    number of an entry is an int, as line 91 annotates it; see
    [build_number_is_int] for the runs that this covers. *)
Definition parse_pipelines_body (compiled_regex : string)
    (pipelines : dict (list PipelineEntry)) (pipeline : value)
  : result (dict (list PipelineEntry)) :=
  let pipeline_base_url := (BITBUCKET_BASE_URL env ++ "/pipelines/results")%string in
  branch_v <- getpath pipeline ["target"; "ref_name"] ;;
  build_number_v <- getitem pipeline "build_number" ;;
  branch <- as_str branch_v ;;
  if re_search env compiled_regex branch then
    let key := last_segment branch in
    let pipelines :=
      match dict_get pipelines key with
      | Some (_ :: _) => pipelines
      | _ => dict_set pipelines key []
      end in
    build_number <- as_int build_number_v ;;
    let entry := {| pl_url := (pipeline_base_url ++ "/" ++ str_of_int build_number)%string;
                    pl_branch := branch;
                    pl_build_number := build_number |} in
    match dict_get pipelines key with
    | Some l => Ok (dict_set pipelines key (l ++ [entry]))
    | None => Raise (KeyError key)
    end
  else Ok pipelines.

Definition parse_pipelines (raw_pipelines : list value) (compiled_regex : string)
  : result (dict (list PipelineEntry)) :=
  for_each (parse_pipelines_body compiled_regex) raw_pipelines [].

(** Lines 112-120, the body of the loop of [parse_pullrequests]. *)
Definition parse_pullrequests_body (compiled_regex : string)
    (pullrequests : dict (list PullRequestEntry)) (pr : value)
  : result (dict (list PullRequestEntry)) :=
  branch_v <- getpath pr ["source"; "branch"; "name"] ;;
  branch <- as_str branch_v ;;
  if re_search env compiled_regex branch then
    let key := last_segment branch in
    let pullrequests :=
      match dict_get pullrequests key with
      | Some (_ :: _) => pullrequests
      | _ => dict_set pullrequests key []
      end in
    url <- getpath pr ["links"; "html"; "href"] ;;
    let entry := {| pr_url := url; pr_branch := branch |} in
    match dict_get pullrequests key with
    | Some l => Ok (dict_set pullrequests key (l ++ [entry]))
    | None => Raise (KeyError key)
    end
  else Ok pullrequests.

Definition parse_pullrequests (raw_pullrequests : list value)
    (compiled_regex : string) : result (dict (list PullRequestEntry)) :=
  for_each (parse_pullrequests_body compiled_regex) raw_pullrequests [].

(** Lines 131-144, the body of the first loop of [parse_result].  The
    fields are read before the dict is stored under the key.  A key that is
    a list or a dict cannot be hashed, and the assignment raises.  A key that
    is [None] or an int is stored as well; [results] holds the keys that are
    str, the only ones that can reach the output, since a key of another
    type makes the join of line 146 raise (see [key_is_str]). *)
Definition jira_body (results : dict AggregatedResult) (jira : value)
  : result (dict AggregatedResult) :=
  jira_id <- getitem jira "key" ;;
  status_v <- getpath jira ["fields"; "status"; "name"] ;;
  type_v <- getpath jira ["fields"; "issuetype"; "name"] ;;
  title_v <- getpath jira ["fields"; "summary"] ;;
  reporter_v <- getpath jira ["fields"; "reporter"; "displayName"] ;;
  assignee_v <- getpath jira ["fields"; "assignee"; "displayName"] ;;
  match jira_id with
  | VStr jira_id =>
      Ok (dict_set results jira_id
            {| ar_id := jira_id;
               ar_status := status_v;
               ar_type := type_v;
               ar_title := title_v;
               ar_reporter := reporter_v;
               ar_assignee := assignee_v;
               ar_jira_url := (JIRA_API_HOST env ++ "/browse/" ++ jira_id)%string;
               ar_pullrequests := [];
               ar_pipelines := [] |})
  | VNone | VInt _ => Ok results
  | VList _ | VDict _ => Raise TypeError
  end.

(** The key of the issue is a str.  After the first loop every issue has a
    key, and ["|".join(results.keys())] raises [TypeError] when one of the
    keys is not a str. *)
Definition key_is_str (jira : value) : bool :=
  match getitem jira "key" with
  | Ok (VStr _) => true
  | _ => false
  end.

(** Lines 164-171, the body of the loop over one key's pipelines. *)
Definition filter_body (f : Filtered) (p : PipelineEntry) : Filtered :=
  if contains "migra" (pl_branch p) then
    {| migrations := migrations f ++ [p];
       regular_pr := regular_pr f;
       last_build_number := last_build_number f |}
  else if last_build_number f <? pl_build_number p then
    {| migrations := migrations f;
       regular_pr := [p];
       last_build_number := pl_build_number p |}
  else f.

Definition filter_pipelines (pipes : list PipelineEntry) : Filtered :=
  fold_left filter_body pipes
    {| migrations := []; regular_pr := []; last_build_number := 0 |}.

(** Lines 155-174, one round of the loop over [pipelines.items()]. *)
Definition merge_pipelines_body (results : dict AggregatedResult)
    (item : string * list PipelineEntry) : dict AggregatedResult :=
  let (key, pipes) := item in
  match dict_get results key with
  | Some r =>
      let filtered_pipelines := filter_pipelines pipes in
      dict_set results key
        (set_pipelines r
           ((ar_pipelines r ++ migrations filtered_pipelines)
              ++ regular_pr filtered_pipelines))
  | None => results
  end.

(** Lines 176-178, one round of the loop over [pullrequests.items()]. *)
Definition merge_pullrequests_body (results : dict AggregatedResult)
    (item : string * list PullRequestEntry) : dict AggregatedResult :=
  let (key, prs) := item in
  match dict_get results key with
  | Some r => dict_set results key (set_pullrequests r prs)
  | None => results
  end.

(** Lines 124-180.  The join of line 146 raises [TypeError] on a key that is
    no str, and [re.compile] raises [re.error] on a pattern that does not
    compile; [parse_pullrequests] runs before [parse_pipelines]. *)
Definition parse_result (jira_response pullrequests_response
                           pipelines_response : list value)
  : result (list AggregatedResult) :=
  results <- for_each jira_body jira_response [] ;;
  if forallb key_is_str jira_response then
    let compiled_regex := String.concat "|" (dict_keys results) in
    if re_compiles env compiled_regex then
      pullrequests <- parse_pullrequests pullrequests_response compiled_regex ;;
      pipelines <- parse_pipelines pipelines_response compiled_regex ;;
      let results := fold_left merge_pipelines_body pipelines results in
      let results := fold_left merge_pullrequests_body pullrequests results in
      Ok (dict_values results)
    else Raise ReError
  else Raise TypeError.

(** *** Vocabulary of the statements *)

(** The draft that the first loop stores for a well-formed issue. *)
Definition draft (i : Issue) : AggregatedResult :=
  {| ar_id := identifier i;
     ar_status := VStr (status i);
     ar_type := VStr (type i);
     ar_title := VStr (title i);
     ar_reporter := VStr (reporter i);
     ar_assignee := VStr (assignee i);
     ar_jira_url := (JIRA_API_HOST env ++ "/browse/" ++ identifier i)%string;
     ar_pullrequests := [];
     ar_pipelines := [] |}.

(** [results] after the first loop, on well-formed issues. *)
Definition drafts (issues : list Issue) : dict AggregatedResult :=
  fold_left (fun results i => dict_set results (identifier i) (draft i)) issues [].

(** [results.keys()] and the pattern compiled from them, line 146. *)
Definition issue_keys (issues : list Issue) : list string :=
  dict_keys (drafts issues).

Definition pattern (issues : list Issue) : string :=
  String.concat "|" (issue_keys issues).

(** The summary appended for a pull request, line 119. *)
Definition pullrequest_entry (p : PullRequest) : PullRequestEntry :=
  {| pr_url := VStr (pull_url p); pr_branch := pull_branch p |}.

(** The summary appended for a pipeline run, lines 97-101. *)
Definition pipeline_entry (p : PipelineRun) : PipelineEntry :=
  {| pl_url := ((BITBUCKET_BASE_URL env ++ "/pipelines/results") ++ "/"
                  ++ str_of_int (run_build_number p))%string;
     pl_branch := run_branch p;
     pl_build_number := run_build_number p |}.

(** A branch is grouped under [key] when the pattern is found in it and its
    last path segment is [key], lines 92-93 and 114-115. *)
Definition grouped (compiled_regex key branch : string) : bool :=
  re_search env compiled_regex branch && (last_segment branch =? key)%string.

(** The pull requests and the pipeline runs grouped under [key], in input
    order. *)
Definition key_pullrequests (compiled_regex : string) (prs : list PullRequest)
    (key : string) : list PullRequestEntry :=
  map pullrequest_entry
    (filter (fun p => grouped compiled_regex key (pull_branch p)) prs).

Definition key_pipelines (compiled_regex : string) (runs : list PipelineRun)
    (key : string) : list PipelineEntry :=
  map pipeline_entry
    (filter (fun p => grouped compiled_regex key (run_branch p)) runs).

End Aggregator.

(** *** The two loop shapes of the script

    [parse_pullrequests] and [parse_pipelines] append the summary of every
    matching record to the list stored under its key; the last two loops of
    [parse_result] update the result stored under each key of a dict of
    groups, when there is one.  The loop bodies are shown equal to these. *)

Definition or_empty {E : Type} (o : option (list E)) : list E :=
  match o with
  | Some l => l
  | None => []
  end.

Definition group_body {A E : Type} (matched : A -> bool) (key : A -> string)
    (entry : A -> E) (acc : dict (list E)) (a : A) : dict (list E) :=
  if matched a
  then dict_set acc (key a) (or_empty (dict_get acc (key a)) ++ [entry a])
  else acc.

Definition selected {A E : Type} (matched : A -> bool) (key : A -> string)
    (entry : A -> E) (k : string) (xs : list A) : list E :=
  map entry (filter (fun a => matched a && (key a =? k)%string) xs).

Definition merge_body {R X : Type} (update : R -> X -> R) (results : dict R)
    (item : string * X) : dict R :=
  match dict_get results (fst item) with
  | Some r => dict_set results (fst item) (update r (snd item))
  | None => results
  end.

Definition merged {R X : Type} (update : R -> X -> R) (groups : dict X)
    (k : string) (r : R) : R :=
  match dict_get groups k with
  | Some x => update r x
  | None => r
  end.

Definition is_migration (p : PipelineEntry) : bool := contains "migra" (pl_branch p).
Definition is_regular (p : PipelineEntry) : bool := negb (is_migration p).

(** What lines 162-174 leave in a result whose pipelines list was empty. *)
Definition kept_pipelines (pipes : list PipelineEntry) : list PipelineEntry :=
  migrations (filter_pipelines pipes) ++ regular_pr (filter_pipelines pipes).

(** The result that the last two loops leave under [key]. *)
Definition finish (env : Env) (compiled_regex : string) (prs : list PullRequest)
    (runs : list PipelineRun) (key : string) (r : AggregatedResult)
  : AggregatedResult :=
  set_pullrequests
    (set_pipelines r (kept_pipelines (key_pipelines env compiled_regex runs key)))
    (key_pullrequests env compiled_regex prs key).

(** The output on well-formed records, in closed form. *)
Definition aggregate (env : Env) (issues : list Issue) (prs : list PullRequest)
    (runs : list PipelineRun) : list AggregatedResult :=
  map (fun kr => finish env (pattern env issues) prs runs (fst kr) (snd kr))
      (drafts env issues).

(** A branch matches no issue identifier: the compiled pattern is not found
    in it, or none of the identifiers occurs in it. *)
Definition matches_no_identifier (env : Env) (issues : list Issue)
    (branch : string) : Prop :=
  re_search env (pattern env issues) branch = false \/
  forall k, In k (map identifier issues) -> contains k branch = false.

(** The environment of the examples: two base urls and the literal
    alternation engine, which compiles the patterns without metacharacters
    only; on these it is [re]. *)
Definition example_env : Env :=
  {| JIRA_API_HOST := "https://jira.example";
     BITBUCKET_BASE_URL := "https://bitbucket.example/repo";
     re_search := literal_search;
     re_compiles := literal_compiles;
     re_compiles_empty := eq_refl |}.




(** *** Records with a missing field *)

(** [v[k1][k2]...] raises [KeyError]. *)
Definition lacks (v : value) (path : list string) : Prop :=
  exists k, getpath v path = Raise (KeyError k).

(** The subscript chains of lines 132-140. *)
Definition issue_paths : list (list string) :=
  [["key"];
   ["fields"; "status"; "name"];
   ["fields"; "issuetype"; "name"];
   ["fields"; "summary"];
   ["fields"; "reporter"; "displayName"];
   ["fields"; "assignee"; "displayName"]].

Definition issue_lacks_field (jira : value) : Prop :=
  Exists (lacks jira) issue_paths.

Definition pullrequest_lacks_branch (pr : value) : Prop :=
  lacks pr ["source"; "branch"; "name"].

(** The url of a pull request is read after the pattern was found in its
    branch, line 119. *)
Definition pullrequest_lacks_url (env : Env) (jira_response : list value)
    (pr : value) : Prop :=
  exists results branch,
    for_each (jira_body env) jira_response [] = Ok results /\
    getpath pr ["source"; "branch"; "name"] = Ok (VStr branch) /\
    re_search env (String.concat "|" (dict_keys results)) branch = true /\
    lacks pr ["links"; "html"; "href"].

Definition pipeline_lacks_field (pipeline : value) : Prop :=
  lacks pipeline ["target"; "ref_name"] \/ lacks pipeline ["build_number"].

(** The subscript chains of lines 113 and 119, and of lines 90-91. *)
Definition pullrequest_paths : list (list string) :=
  [["source"; "branch"; "name"]; ["links"; "html"; "href"]].

Definition pipeline_paths : list (list string) :=
  [["target"; "ref_name"]; ["build_number"]].

(** The key [k] is missing from a record of the input, at one of the
    subscript chains that the aggregator reads: subscripting raises
    [KeyError k] there. *)
Definition key_missing
    (jira_response pullrequests_response pipelines_response : list value)
    (k : string) : Prop :=
  (exists jira path,
      In jira jira_response /\ In path issue_paths /\
      getpath jira path = Raise (KeyError k)) \/
  (exists pr path,
      In pr pullrequests_response /\ In path pullrequest_paths /\
      getpath pr path = Raise (KeyError k)) \/
  (exists pipeline path,
      In pipeline pipelines_response /\ In path pipeline_paths /\
      getpath pipeline path = Raise (KeyError k)).

(** Some record lacks a field that the aggregator reads from it. *)
Definition read_field_missing (env : Env)
    (jira_response pullrequests_response pipelines_response : list value) : Prop :=
  Exists issue_lacks_field jira_response \/
  Exists pullrequest_lacks_branch pullrequests_response \/
  Exists (pullrequest_lacks_url env jira_response) pullrequests_response \/
  Exists pipeline_lacks_field pipelines_response.

(** *** Sample records *)

Definition issue_ABC_1 : Issue :=
  {| identifier := "ABC-1"; status := "In Progress"; type := "Story";
     title := "Weekly report"; reporter := "Ana"; assignee := "Rui" |}.

(** An issue whose key is an unbalanced parenthesis. *)
Definition issue_paren : Issue :=
  {| identifier := "("; status := "Done"; type := "Bug";
     title := "Fix login"; reporter := "Rui"; assignee := "Ana" |}.

Definition issue_AJ_7 : Issue :=
  {| identifier := "AJ-7"; status := "Done"; type := "Bug";
     title := "Fix login"; reporter := "Rui"; assignee := "Ana" |}.

Definition run (branch : string) (build_number : Z) : PipelineRun :=
  {| run_branch := branch; run_build_number := build_number |}.

Definition pull (branch url : string) : PullRequest :=
  {| pull_branch := branch; pull_url := url |}.

(** A pull request record without its [links]. *)
Definition pull_without_links (branch : string) : value :=
  VDict [("source", VDict [("branch", VDict [("name", VStr branch)])])].

(** A pull request record whose branch has no [name]. *)
Definition pull_without_branch_name (url : string) : value :=
  VDict [("source", VDict [("branch", VDict [])]);
         ("links", VDict [("html", VDict [("href", VStr url)])])].

(** An issue record whose status has no [name]. *)
Definition issue_without_status_name (key : string) : value :=
  VDict [("key", VStr key);
         ("fields", VDict [
            ("summary", VStr "Weekly report");
            ("status", VDict []);
            ("issuetype", VDict [("name", VStr "Story")]);
            ("reporter", VDict [("displayName", VStr "Ana")]);
            ("assignee", VDict [("displayName", VStr "Rui")])])].

(** *** Further vocabulary *)

(** The distinct elements of a list, each at its first occurrence. *)
Fixpoint dedup (l : list string) : list string :=
  match l with
  | [] => []
  | x :: l' => x :: filter (fun y => negb (y =? x)%string) (dedup l')
  end.

(** The record of an issue that nobody is assigned to: the issue tracker
    sends [null] for the assignee. *)
Definition issue_json_unassigned (i : Issue) : value :=
  VDict [("key", VStr (identifier i));
         ("fields", VDict [
            ("summary", VStr (title i));
            ("status", VDict [("name", VStr (status i))]);
            ("issuetype", VDict [("name", VStr (type i))]);
            ("reporter", VDict [("displayName", VStr (reporter i))]);
            ("assignee", VNone)])].

(** [k not in seen] *)
Definition fresh (seen : list string) (k : string) : bool :=
  negb (existsb (String.eqb k) seen).

(** ** The text report

    [format_result_output] prints the list that [parse_result] returned.
    It is modelled on results whose fields are strings, as they are for the
    issues of the issue tracker; a string is taken as its sequence of
    characters. *)

Record Link : Type := {
  link_url : string;
  link_branch : string
}.

Record Report : Type := {
  rp_id : string;
  rp_status : string;
  rp_type : string;
  rp_title : string;
  rp_reporter : string;
  rp_assignee : string;
  rp_jira_url : string;
  rp_pullrequests : list Link;
  rp_pipelines : list Link
}.

(** The characters [\n] and [\033]. *)
Definition newline : ascii := ascii_of_nat 10.
Definition escape : ascii := ascii_of_nat 27.

(** Lines 199-202: a section is printed when its list is not empty. *)
Definition format_section (title : string) (links : list Link) : string :=
  match links with
  | [] => EmptyString
  | _ =>
      (title ++
       String.concat EmptyString
         (map (fun p => "- " ++ link_url p ++ " (" ++ link_branch p ++ ")"
                          ++ String newline EmptyString)
              links))%string
  end.

(** Lines 186-202, the text of one issue.  A [string] holds one character per
    [ascii], so [substring 0 85] is [title[:85]] for the titles that the
    type holds, those of characters below 256. *)
Definition format_issue (issue : Report) : string :=
  let s :=
    (String newline EmptyString
     ++ String escape "[92m" ++ rp_id issue ++ String escape "[00m: "
     ++ rp_status issue ++ " - " ++ rp_type issue ++ String newline EmptyString
     ++ "Title: " ++ substring 0 85 (rp_title issue) ++ String newline EmptyString
     ++ "Reporter: " ++ rp_reporter issue ++ String newline EmptyString
     ++ "Assignee: " ++ rp_assignee issue ++ String newline EmptyString
     ++ "Jira: " ++ rp_jira_url issue ++ String newline EmptyString)%string in
  let s := (s ++ format_section ("Pull Requests:" ++ String newline EmptyString)
                                (rp_pullrequests issue))%string in
  (s ++ format_section ("Pipelines:" ++ String newline EmptyString)
                       (rp_pipelines issue))%string.

Definition format_result_output (result : list Report) : string :=
  fold_left (fun output issue => (output ++ format_issue issue)%string)
            result EmptyString.

(** The number of occurrences of a character. *)
Fixpoint count_char (c : ascii) (s : string) : nat :=
  match s with
  | EmptyString => 0
  | String a s' => (if Ascii.eqb a c then 1 else 0) + count_char c s'
  end.

Definition one_line (s : string) : Prop := count_char newline s = 0%nat.

Definition link_one_line (p : Link) : Prop :=
  one_line (link_url p) /\ one_line (link_branch p).

(** No field of the report holds a line break. *)
Definition report_one_line (issue : Report) : Prop :=
  one_line (rp_id issue) /\ one_line (rp_status issue) /\
  one_line (rp_type issue) /\ one_line (rp_title issue) /\
  one_line (rp_reporter issue) /\ one_line (rp_assignee issue) /\
  one_line (rp_jira_url issue) /\
  Forall link_one_line (rp_pullrequests issue) /\
  Forall link_one_line (rp_pipelines issue).

(** The lines of a section: a title line and one line per entry, or
    nothing. *)
Definition section_lines (links : list Link) : nat :=
  match links with
  | [] => 0
  | _ => S (List.length links)
  end.

(** ** The request to the repository host

    Lines 22-27 of [get_bitbucket_response]: one slash at the end of the
    endpoint is dropped, and the url is built from the base url of the api,
    the endpoint and a final slash. *)

(** [s.endswith(c)] for a character [c]. *)
Fixpoint ends_with (c : ascii) (s : string) : bool :=
  match s with
  | EmptyString => false
  | String a EmptyString => Ascii.eqb a c
  | String _ s' => ends_with c s'
  end.

(** [s[:-1]] *)
Fixpoint drop_last (s : string) : string :=
  match s with
  | EmptyString => EmptyString
  | String _ EmptyString => EmptyString
  | String a s' => String a (drop_last s')
  end.

Definition bitbucket_request_url (BITBUCKET_API_BASE_URL endpoint : string)
  : string :=
  let endpoint := if ends_with "/" endpoint then drop_last endpoint else endpoint in
  (BITBUCKET_API_BASE_URL ++ "/" ++ endpoint ++ "/")%string.

Definition sample_report : Report :=
  {| rp_id := "ABC-1"; rp_status := "In Progress"; rp_type := "Story";
     rp_title := "Weekly report"; rp_reporter := "Ana"; rp_assignee := "Rui";
     rp_jira_url := "https://jira.example/browse/ABC-1";
     rp_pullrequests := [{| link_url := "u1"; link_branch := "feature/ABC-1" |}];
     rp_pipelines := [] |}.

(** [re.compile] accepts the pattern and [re.search] reads it as the
    alternation of its literal alternatives: so it is for keys of letters,
    digits and hyphens. *)
Definition reads_literally (env : Env) (pat : string) : Prop :=
  re_compiles env pat = true /\
  forall s, re_search env pat s = literal_search pat s.



(** The build number of a pipeline run is an int where the run has one, as
    line 91 annotates it.  The theorems about arbitrary JSON are stated for
    such runs: on another build number the code formats and stores the
    entry, and compares it at line 167 only when it is a regular entry
    under the key of an issue, where the embedding stops at line 91. *)
Definition build_number_is_int (pipeline : value) : bool :=
  match getitem pipeline "build_number" with
  | Ok (VInt _) => true
  | Ok _ => false
  | Raise _ => true
  end.

(** ** Dicts *)

Section DictFacts.

Context {V : Type}.
Implicit Types (d : dict V) (k : string) (v : V).

Lemma dict_get_set_same d k v : dict_get (dict_set d k v) k = Some v.
Proof.
  induction d as [|[k' v'] d IH]; simpl.
  - now rewrite String.eqb_refl.
  - destruct (k' =? k)%string eqn:E; simpl; rewrite E; auto.
Qed.

Lemma dict_get_set_other d k k' v :
  k' <> k -> dict_get (dict_set d k v) k' = dict_get d k'.
Proof.
  intros Hne. induction d as [|[k0 v0] d IH]; simpl.
  - destruct (String.eqb_spec k k'); congruence.
  - destruct (String.eqb_spec k0 k) as [->|]; simpl.
    + destruct (String.eqb_spec k k'); congruence.
    + now rewrite IH.
Qed.

Lemma dict_get_none d k : dict_get d k = None <-> ~ In k (dict_keys d).
Proof.
  induction d as [|[k' v'] d IH]; simpl.
  - tauto.
  - destruct (String.eqb_spec k' k); split; intros H.
    + discriminate.
    + exfalso; apply H; now left.
    + intros [?|?]; [congruence|]. now apply IH.
    + apply IH. intros ?; apply H; now right.
Qed.

Lemma dict_keys_set_present d k v :
  In k (dict_keys d) -> dict_keys (dict_set d k v) = dict_keys d.
Proof.
  induction d as [|[k' v'] d IH]; simpl; [tauto|].
  destruct (String.eqb_spec k' k) as [->|]; simpl; auto.
  intros [?|?]; [congruence|]. now rewrite IH.
Qed.

Lemma dict_keys_set_absent d k v :
  ~ In k (dict_keys d) -> dict_keys (dict_set d k v) = dict_keys d ++ [k].
Proof.
  induction d as [|[k' v'] d IH]; simpl; auto.
  destruct (String.eqb_spec k' k) as [->|]; simpl; intros H.
  - exfalso; apply H; now left.
  - rewrite IH; auto.
Qed.

Lemma dict_keys_set_nodup d k v :
  NoDup (dict_keys d) -> NoDup (dict_keys (dict_set d k v)).
Proof.
  intros Hnd. destruct (in_dec string_dec k (dict_keys d)) as [Hin|Hnotin].
  - now rewrite dict_keys_set_present.
  - rewrite dict_keys_set_absent by assumption.
    apply NoDup_app; auto.
    + repeat constructor; simpl; tauto.
    + intros x Hx [<-|[]]; contradiction.
Qed.

Lemma dict_set_set d k v v' : dict_set (dict_set d k v) k v' = dict_set d k v'.
Proof.
  induction d as [|[k0 v0] d IH]; simpl.
  - now rewrite String.eqb_refl.
  - destruct (k0 =? k)%string eqn:E; simpl; rewrite E; congruence.
Qed.

Lemma dict_set_absent d k v :
  ~ In k (dict_keys d) -> dict_set d k v = d ++ [(k, v)].
Proof.
  induction d as [|[k' v'] d IH]; simpl; auto.
  destruct (String.eqb_spec k' k) as [->|]; intros H.
  - exfalso; apply H; now left.
  - rewrite IH; auto.
Qed.

Lemma dict_set_in d k v k' v' :
  In (k', v') (dict_set d k v) -> In (k', v') d \/ (k' = k /\ v' = v).
Proof.
  induction d as [|[k0 v0] d IH]; simpl.
  - intros [H|[]]. right. now injection H as -> ->.
  - destruct (String.eqb_spec k0 k) as [->|]; simpl.
    + intros [H|H]; [right; now injection H as -> ->|tauto].
    + intros [H|H]; [tauto|]. destruct (IH H); tauto.
Qed.

Lemma dict_keys_set_in d k v k' :
  In k' (dict_keys (dict_set d k v)) <-> In k' (dict_keys d) \/ k' = k.
Proof.
  destruct (in_dec string_dec k (dict_keys d)) as [Hin|Hnotin].
  - rewrite dict_keys_set_present by assumption.
    split; [tauto|]. intros [?| ->]; assumption.
  - rewrite dict_keys_set_absent by assumption.
    rewrite in_app_iff. simpl. intuition.
Qed.

(** Two dicts with the same keys, in the same order and without
    repetition, and with the same value under every key, are equal. *)
Lemma dict_ext d1 d2 :
  dict_keys d1 = dict_keys d2 -> NoDup (dict_keys d1) ->
  (forall k, In k (dict_keys d1) -> dict_get d1 k = dict_get d2 k) ->
  d1 = d2.
Proof.
  revert d2. induction d1 as [|[k1 v1] d1 IH]; intros [|[k2 v2] d2]; simpl;
    try discriminate; auto.
  intros Hk Hnd Hget. injection Hk as <- Hk.
  inversion Hnd as [|? ? Hnotin Hnd']; subst.
  pose proof (Hget k1 (or_introl eq_refl)) as H1.
  rewrite String.eqb_refl in H1. injection H1 as <-.
  f_equal. apply IH; auto.
  intros k Hin. specialize (Hget k (or_intror Hin)).
  destruct (String.eqb_spec k1 k) as [->|]; [contradiction|auto].
Qed.

End DictFacts.

(** ** Loops *)

Lemma for_each_total {A B S : Type} (body : S -> B -> result S) (step : S -> A -> S)
    (json : A -> B) :
  (forall s a, body s (json a) = Ok (step s a)) ->
  forall xs s, for_each body (map json xs) s = Ok (fold_left step xs s).
Proof.
  intros Hbody. induction xs as [|x xs IH]; intros s; simpl; auto.
  rewrite Hbody. simpl. apply IH.
Qed.

(** A round that raises whatever the state makes the loop raise. *)
Lemma for_each_raises {A S : Type} (body : S -> A -> result S) (xs : list A) :
  Exists (fun x => forall s, exists e, body s x = Raise e) xs ->
  forall s, exists e, for_each body xs s = Raise e.
Proof.
  induction 1 as [x xs Hx|x xs _ IH]; intros s; simpl.
  - destruct (Hx s) as [e ->]. now exists e.
  - destruct (body s x) as [s'|e]; simpl; [apply IH|now exists e].
Qed.

(** ** Grouping by key

    Both [parse_pullrequests] and [parse_pipelines] append the summary of a
    matching record to the list stored under its key. *)

Section Grouping.

Context {A E : Type}.
Variable matched : A -> bool.
Variable key : A -> string.
Variable entry : A -> E.

Local Abbreviation group_body := (group_body matched key entry).
Local Abbreviation selected := (selected matched key entry).

(** The three statements of the loop body that touch the dict. *)
Lemma setdefault_append (acc : dict (list E)) (k : string) (e : E) :
  (let acc' := match dict_get acc k with
               | Some (_ :: _) => acc
               | _ => dict_set acc k []
               end in
   match dict_get acc' k with
   | Some l => Ok (dict_set acc' k (l ++ [e]))
   | None => Raise (KeyError k)
   end) = Ok (dict_set acc k (or_empty (dict_get acc k) ++ [e])).
Proof.
  destruct (dict_get acc k) as [[|x l]|] eqn:Hget; cbv zeta.
  - now rewrite dict_get_set_same, dict_set_set.
  - now rewrite Hget.
  - now rewrite dict_get_set_same, dict_set_set.
Qed.

Lemma group_get (xs : list A) : forall (acc : dict (list E)) (k : string),
  dict_get (fold_left group_body xs acc) k =
  match selected k xs with
  | [] => dict_get acc k
  | l => Some (or_empty (dict_get acc k) ++ l)
  end.
Proof.
  unfold selected.
  induction xs as [|x xs IH]; intros acc k; simpl; auto.
  rewrite IH. unfold group_body.
  destruct (matched x); simpl; auto.
  destruct (String.eqb_spec (key x) k) as [->|Hne]; simpl.
  - rewrite dict_get_set_same. simpl.
    destruct (map entry _); [reflexivity|].
    now rewrite <- app_assoc.
  - rewrite dict_get_set_other by congruence. reflexivity.
Qed.

Lemma group_nodup (xs : list A) : forall (acc : dict (list E)),
  NoDup (dict_keys acc) -> NoDup (dict_keys (fold_left group_body xs acc)).
Proof.
  induction xs as [|x xs IH]; intros acc Hnd; simpl; auto.
  apply IH. unfold group_body. destruct (matched x); auto.
  now apply dict_keys_set_nodup.
Qed.

End Grouping.

(** ** Merging the groups into the results

    Both loops at the end of [parse_result] update the result stored under
    each key of a dict of groups, when there is one. *)

Section Merging.

Context {R X : Type}.
Variable update : R -> X -> R.

Local Abbreviation merge_body := (merge_body update).
Local Abbreviation merged := (merged update).

Lemma merge_body_keys (results : dict R) (item : string * X) :
  dict_keys (merge_body results item) = dict_keys results.
Proof.
  unfold merge_body. destruct (dict_get results (fst item)) eqn:Hget; auto.
  apply dict_keys_set_present.
  destruct (in_dec string_dec (fst item) (dict_keys results)) as [|Hn]; auto.
  apply dict_get_none in Hn. congruence.
Qed.

Lemma merge_keys (groups : dict X) : forall results : dict R,
  dict_keys (fold_left merge_body groups results) = dict_keys results.
Proof.
  induction groups as [|item groups IH]; intros results; simpl; auto.
  now rewrite IH, merge_body_keys.
Qed.

Lemma merge_get (groups : dict X) : forall (results : dict R) (k : string),
  NoDup (dict_keys groups) ->
  dict_get (fold_left merge_body groups results) k =
  option_map (merged groups k) (dict_get results k).
Proof.
  induction groups as [|[kg x] groups IH]; intros results k Hnd; simpl.
  - now destruct (dict_get results k).
  - inversion Hnd as [|? ? Hnotin Hnd']; subst.
    rewrite IH by assumption. unfold merge_body, merged; simpl.
    destruct (String.eqb_spec kg k) as [->|Hne].
    + apply dict_get_none in Hnotin. rewrite Hnotin.
      destruct (dict_get results k) as [r|] eqn:Hget.
      * now rewrite dict_get_set_same.
      * now rewrite Hget.
    + destruct (dict_get results kg) as [r|]; auto.
      rewrite dict_get_set_other by congruence. reflexivity.
Qed.

(** With distinct keys on both sides, the loop updates every result in
    place. *)
Lemma merge_map (groups : dict X) (results : dict R) :
  NoDup (dict_keys groups) -> NoDup (dict_keys results) ->
  fold_left merge_body groups results =
  map (fun kr => (fst kr, merged groups (fst kr) (snd kr))) results.
Proof.
  intros Hg Hr. apply dict_ext.
  - rewrite merge_keys. unfold dict_keys. rewrite map_map. reflexivity.
  - now rewrite merge_keys.
  - intros k Hin. rewrite merge_get by assumption.
    clear Hin. induction results as [|[k' r] results IH]; simpl; auto.
    inversion Hr; subst.
    destruct (String.eqb_spec k' k) as [->|]; simpl; auto.
Qed.

End Merging.

(** ** The running maximum of lines 162-171 *)

Lemma filter_migrations (pipes : list PipelineEntry) : forall f : Filtered,
  migrations (fold_left filter_body pipes f) =
  migrations f ++ filter is_migration pipes.
Proof.
  induction pipes as [|p pipes IH]; intros f; simpl.
  - now rewrite app_nil_r.
  - rewrite IH. unfold filter_body, is_migration.
    destruct (contains "migra" (pl_branch p)); simpl.
    + now rewrite <- app_assoc.
    + destruct (last_build_number f <? pl_build_number p); reflexivity.
Qed.

(** Either no regular run beats the build number the loop started from, or
    the loop ends on the first regular run with the largest build number. *)
Lemma filter_regular (pipes : list PipelineEntry) : forall f : Filtered,
  (regular_pr (fold_left filter_body pipes f) = regular_pr f /\
   last_build_number (fold_left filter_body pipes f) = last_build_number f /\
   forall q, In q pipes -> is_regular q = true ->
             pl_build_number q <= last_build_number f)
  \/
  (exists l1 p l2,
      pipes = l1 ++ p :: l2 /\ is_regular p = true /\
      regular_pr (fold_left filter_body pipes f) = [p] /\
      last_build_number (fold_left filter_body pipes f) = pl_build_number p /\
      last_build_number f < pl_build_number p /\
      (forall q, In q l1 -> is_regular q = true ->
                 pl_build_number q < pl_build_number p) /\
      (forall q, In q l2 -> is_regular q = true ->
                 pl_build_number q <= pl_build_number p)).
Proof.
  induction pipes as [|x pipes IH]; intros f.
  - left. simpl. intuition.
  - simpl fold_left.
    destruct (contains "migra" (pl_branch x)) eqn:Hm.
    + assert (Hx : is_regular x = false)
        by (unfold is_regular, is_migration; now rewrite Hm).
      assert (Hf : filter_body f x =
                   {| migrations := migrations f ++ [x];
                      regular_pr := regular_pr f;
                      last_build_number := last_build_number f |})
        by (unfold filter_body; now rewrite Hm).
      rewrite Hf.
      destruct (IH {| migrations := migrations f ++ [x];
                      regular_pr := regular_pr f;
                      last_build_number := last_build_number f |})
        as [(Hr & Hl & Hall)|(l1 & p & l2 & -> & Hp & Hr & Hl & Hlt & H1 & H2)];
        simpl in *.
      * left. repeat split; auto.
        intros q [<-|Hq] Hreg; [congruence|auto].
      * right. exists (x :: l1), p, l2. repeat split; auto.
        intros q [<-|Hq] Hreg; [congruence|auto].
    + assert (Hx : is_regular x = true)
        by (unfold is_regular, is_migration; now rewrite Hm).
      destruct (Z.ltb_spec (last_build_number f) (pl_build_number x)) as [Hlt|Hge].
      * assert (Hf : filter_body f x =
                     {| migrations := migrations f;
                        regular_pr := [x];
                        last_build_number := pl_build_number x |}).
        { unfold filter_body. rewrite Hm.
          now destruct (Z.ltb_spec (last_build_number f) (pl_build_number x)); [|lia]. }
        rewrite Hf.
        destruct (IH {| migrations := migrations f;
                        regular_pr := [x];
                        last_build_number := pl_build_number x |})
          as [(Hr & Hl & Hall)|(l1 & p & l2 & -> & Hp & Hr & Hl & Hlt' & H1 & H2)];
          simpl in *.
        -- right. exists [], x, pipes. repeat split; auto.
           intros q [].
        -- right. exists (x :: l1), p, l2. repeat split; auto; try lia.
           intros q [<-|Hq] Hreg; [lia|auto].
      * assert (Hf : filter_body f x = f).
        { unfold filter_body. rewrite Hm.
          now destruct (Z.ltb_spec (last_build_number f) (pl_build_number x)); [lia|]. }
        rewrite Hf.
        destruct (IH f)
          as [(Hr & Hl & Hall)|(l1 & p & l2 & -> & Hp & Hr & Hl & Hlt' & H1 & H2)].
        -- left. repeat split; auto.
           intros q [<-|Hq] Hreg; [lia|auto].
        -- right. exists (x :: l1), p, l2. repeat split; auto.
           intros q [<-|Hq] Hreg; [lia|auto].
Qed.

Lemma kept_migrations (pipes : list PipelineEntry) :
  migrations (filter_pipelines pipes) = filter is_migration pipes.
Proof. unfold filter_pipelines. now rewrite filter_migrations. Qed.

Lemma kept_regular_at_most_one (pipes : list PipelineEntry) :
  (List.length (regular_pr (filter_pipelines pipes)) <= 1)%nat.
Proof.
  unfold filter_pipelines.
  destruct (filter_regular pipes
              {| migrations := []; regular_pr := []; last_build_number := 0 |})
    as [(-> & _)|(l1 & p & l2 & _ & _ & -> & _)]; simpl; lia.
Qed.

Lemma kept_regular_in (pipes : list PipelineEntry) (p : PipelineEntry) :
  In p (regular_pr (filter_pipelines pipes)) ->
  In p pipes /\ is_regular p = true /\ 0 < pl_build_number p.
Proof.
  unfold filter_pipelines.
  destruct (filter_regular pipes
              {| migrations := []; regular_pr := []; last_build_number := 0 |})
    as [(-> & _)|(l1 & p' & l2 & -> & Hp & -> & _ & Hlt & _)]; simpl.
  - tauto.
  - intros [<-|[]]. repeat split; auto. apply in_elt.
Qed.

(** ** The three loops on well-formed records *)

Section WellFormed.

Variable env : Env.

Lemma jira_body_issue (results : dict AggregatedResult) (i : Issue) :
  jira_body env results (issue_json i) =
  Ok (dict_set results (identifier i) (draft env i)).
Proof. reflexivity. Qed.

Lemma jira_loop (issues : list Issue) :
  for_each (jira_body env) (map issue_json issues) [] = Ok (drafts env issues).
Proof. unfold drafts. apply for_each_total. apply jira_body_issue. Qed.

Lemma parse_pullrequests_body_wf (pat : string)
    (acc : dict (list PullRequestEntry)) (p : PullRequest) :
  parse_pullrequests_body env pat acc (pullrequest_json p) =
  Ok (group_body (fun p => re_search env pat (pull_branch p))
                 (fun p => last_segment (pull_branch p))
                 pullrequest_entry acc p).
Proof.
  unfold parse_pullrequests_body, group_body. cbn.
  destruct (re_search env pat (pull_branch p)); [|reflexivity].
  exact (setdefault_append acc (last_segment (pull_branch p)) (pullrequest_entry p)).
Qed.

Lemma parse_pipelines_body_wf (pat : string)
    (acc : dict (list PipelineEntry)) (p : PipelineRun) :
  parse_pipelines_body env pat acc (pipeline_json p) =
  Ok (group_body (fun p => re_search env pat (run_branch p))
                 (fun p => last_segment (run_branch p))
                 (pipeline_entry env) acc p).
Proof.
  unfold parse_pipelines_body, group_body. cbn.
  destruct (re_search env pat (run_branch p)); [|reflexivity].
  exact (setdefault_append acc (last_segment (run_branch p)) (pipeline_entry env p)).
Qed.

(** *** The drafts *)

Lemma drafts_from_nodup (issues : list Issue) : forall acc : dict AggregatedResult,
  NoDup (dict_keys acc) ->
  NoDup (dict_keys (fold_left (fun results i =>
                                 dict_set results (identifier i) (draft env i))
                              issues acc)).
Proof.
  induction issues as [|i issues IH]; intros acc Hnd; simpl; auto.
  apply IH. now apply dict_keys_set_nodup.
Qed.

Lemma drafts_from_in (issues : list Issue) :
  forall (acc : dict AggregatedResult) (kr : string * AggregatedResult),
  In kr (fold_left (fun results i =>
                      dict_set results (identifier i) (draft env i))
                   issues acc) ->
  In kr acc \/
  exists i, In i issues /\ fst kr = identifier i /\ snd kr = draft env i.
Proof.
  induction issues as [|i issues IH]; intros acc [k r] Hin; simpl in *; auto.
  destruct (IH _ _ Hin) as [H|(i' & Hi' & Hk & Hr)].
  - apply dict_set_in in H. destruct H as [H|[-> ->]]; auto.
    right. exists i. auto.
  - right. exists i'. auto.
Qed.

Lemma drafts_from_keys (issues : list Issue) :
  forall (acc : dict AggregatedResult) (k : string),
  In k (dict_keys (fold_left (fun results i =>
                                dict_set results (identifier i) (draft env i))
                             issues acc)) <->
  In k (dict_keys acc) \/ In k (map identifier issues).
Proof.
  induction issues as [|i issues IH]; intros acc k; simpl.
  - tauto.
  - rewrite IH, dict_keys_set_in. intuition.
Qed.

Lemma drafts_from_distinct (issues : list Issue) :
  forall acc : dict AggregatedResult,
  NoDup (dict_keys acc ++ map identifier issues) ->
  fold_left (fun results i => dict_set results (identifier i) (draft env i))
            issues acc =
  acc ++ map (fun i => (identifier i, draft env i)) issues.
Proof.
  induction issues as [|i issues IH]; intros acc Hnd; simpl.
  - now rewrite app_nil_r.
  - simpl in Hnd. rewrite dict_set_absent.
    + rewrite IH.
      * now rewrite <- app_assoc.
      * unfold dict_keys. rewrite map_app. simpl. now rewrite <- app_assoc.
    + apply NoDup_remove_2 in Hnd. rewrite in_app_iff in Hnd. tauto.
Qed.

Lemma drafts_nodup (issues : list Issue) : NoDup (issue_keys env issues).
Proof. apply drafts_from_nodup. constructor. Qed.

Lemma drafts_in (issues : list Issue) (kr : string * AggregatedResult) :
  In kr (drafts env issues) ->
  exists i, In i issues /\ fst kr = identifier i /\ snd kr = draft env i.
Proof. intros H. apply drafts_from_in in H. destruct H as [[]|H]; auto. Qed.

Lemma issue_keys_in (issues : list Issue) (k : string) :
  In k (issue_keys env issues) <-> In k (map identifier issues).
Proof. unfold issue_keys, drafts. rewrite drafts_from_keys. simpl. tauto. Qed.

Lemma drafts_distinct (issues : list Issue) :
  NoDup (map identifier issues) ->
  drafts env issues = map (fun i => (identifier i, draft env i)) issues.
Proof. intros H. unfold drafts. now rewrite drafts_from_distinct. Qed.

(** *** The output in closed form *)

Lemma fold_left_ext_eq {S T : Type} (f g : S -> T -> S) :
  (forall s t, f s t = g s t) ->
  forall (l : list T) (s : S), fold_left f l s = fold_left g l s.
Proof.
  intros Hfg. induction l as [|t l IH]; intros s; simpl; auto.
  now rewrite Hfg, IH.
Qed.

Lemma pipelines_group_get (pat : string) (runs : list PipelineRun) (k : string) :
  dict_get (fold_left (group_body (fun p => re_search env pat (run_branch p))
                                  (fun p => last_segment (run_branch p))
                                  (pipeline_entry env)) runs []) k =
  match key_pipelines env pat runs k with
  | [] => None
  | l => Some l
  end.
Proof. rewrite group_get. reflexivity. Qed.

Lemma pullrequests_group_get (pat : string) (prs : list PullRequest) (k : string) :
  dict_get (fold_left (group_body (fun p => re_search env pat (pull_branch p))
                                  (fun p => last_segment (pull_branch p))
                                  pullrequest_entry) prs []) k =
  match key_pullrequests env pat prs k with
  | [] => None
  | l => Some l
  end.
Proof. rewrite group_get. reflexivity. Qed.

Lemma issue_keys_are_str (issues : list Issue) :
  forallb key_is_str (map issue_json issues) = true.
Proof. induction issues as [|i issues IH]; simpl; auto. Qed.

(** A pattern that does not compile: [re.error] at line 146, after the
    issues were read. *)
Lemma parse_result_pattern_error (issues : list Issue)
    (pullrequests_response pipelines_response : list value) :
  re_compiles env (pattern env issues) = false ->
  parse_result env (map issue_json issues) pullrequests_response
               pipelines_response = Raise ReError.
Proof.
  intros Hpat. unfold parse_result. rewrite jira_loop. cbn [bind].
  rewrite issue_keys_are_str.
  fold (issue_keys env issues). fold (pattern env issues).
  now rewrite Hpat.
Qed.

Theorem parse_result_wf (issues : list Issue) (prs : list PullRequest)
    (runs : list PipelineRun) :
  re_compiles env (pattern env issues) = true ->
  parse_result env (map issue_json issues) (map pullrequest_json prs)
               (map pipeline_json runs) =
  Ok (aggregate env issues prs runs).
Proof.
  intros Hpat. unfold parse_result. rewrite jira_loop. cbn [bind].
  rewrite issue_keys_are_str.
  fold (issue_keys env issues). fold (pattern env issues).
  rewrite Hpat.
  set (pat := pattern env issues).
  unfold parse_pullrequests, parse_pipelines.
  rewrite (for_each_total _ _ _ (parse_pullrequests_body_wf pat)).
  rewrite (for_each_total _ _ _ (parse_pipelines_body_wf pat)).
  cbn [bind]. f_equal.
  rewrite (fold_left_ext_eq merge_pipelines_body
             (merge_body (fun r pipes =>
                set_pipelines r ((ar_pipelines r ++ migrations (filter_pipelines pipes))
                                   ++ regular_pr (filter_pipelines pipes)))))
    by (intros s [k x]; reflexivity).
  rewrite (fold_left_ext_eq merge_pullrequests_body (merge_body set_pullrequests))
    by (intros s [k x]; reflexivity).
  rewrite (merge_map _ _ (drafts env issues));
    [|apply group_nodup; constructor|apply drafts_nodup].
  rewrite merge_map;
    [|apply group_nodup; constructor
     |unfold dict_keys; rewrite map_map; apply drafts_nodup].
  unfold dict_values, aggregate. rewrite !map_map.
  apply map_ext_in. intros [k r] Hin.
  destruct (drafts_in _ _ Hin) as (i & _ & Hk & Hr). simpl in *. subst k r.
  unfold merged, finish, kept_pipelines.
  rewrite pipelines_group_get, pullrequests_group_get. subst pat.
  destruct (key_pipelines env (pattern env issues) runs (identifier i)) as [|x l];
    destruct (key_pullrequests env (pattern env issues) prs (identifier i))
      as [|y l'];
    reflexivity.
Qed.

(** The aggregator returns on well-formed records exactly when the pattern
    compiles, and then it returns the closed form. *)
Lemma parse_result_returns (issues : list Issue) (prs : list PullRequest)
    (runs : list PipelineRun) (out : list AggregatedResult) :
  parse_result env (map issue_json issues) (map pullrequest_json prs)
               (map pipeline_json runs) = Ok out ->
  re_compiles env (pattern env issues) = true /\
  out = aggregate env issues prs runs.
Proof.
  intros Hrun. destruct (re_compiles env (pattern env issues)) eqn:Hpat.
  - split; auto. rewrite parse_result_wf in Hrun by exact Hpat.
    now injection Hrun.
  - rewrite parse_result_pattern_error in Hrun by exact Hpat. discriminate.
Qed.

End WellFormed.

(** ** The key of a branch occurs in the branch *)

Lemma append_assoc (a b c : string) :
  ((a ++ b) ++ c)%string = (a ++ (b ++ c))%string.
Proof. induction a as [|x a IH]; simpl; congruence. Qed.

Lemma prefix_refl (s : string) : String.prefix s s = true.
Proof.
  induction s as [|c s IH]; simpl; auto.
  destruct (ascii_dec c c); [assumption|contradiction].
Qed.

Lemma contains_suffix (pre s : string) : contains s (pre ++ s)%string = true.
Proof.
  induction pre as [|c pre IH]; simpl.
  - destruct s; simpl; auto. rewrite prefix_refl.
    destruct (ascii_dec a a); [reflexivity|contradiction].
  - rewrite IH. apply orb_true_r.
Qed.

Lemma split_nonempty (sep : ascii) (s : string) : split sep s <> [].
Proof.
  destruct s as [|c s]; simpl; [discriminate|].
  destruct (Ascii.eqb c sep); [discriminate|].
  destruct (split sep s); discriminate.
Qed.

(** [sep.join(s.split(sep)) == s] *)
Lemma concat_split (sep : ascii) (s : string) :
  String.concat (String sep EmptyString) (split sep s) = s.
Proof.
  induction s as [|c s IH]; simpl; auto.
  destruct (Ascii.eqb_spec c sep) as [->|Hne].
  - pose proof (split_nonempty sep s) as Hne.
    simpl. destruct (split sep s) as [|w ws]; [contradiction|].
    simpl in *. now rewrite IH.
  - destruct (split sep s) as [|w ws] eqn:Hs.
    + now apply split_nonempty in Hs.
    + simpl in *. destruct ws; simpl in *; now rewrite <- IH.
Qed.

Lemma concat_ends_with_last (sep : string) (l : list string) :
  exists pre, String.concat sep l = (pre ++ last l EmptyString)%string.
Proof.
  induction l as [|x l IH].
  - now exists EmptyString.
  - destruct l as [|y l].
    + now exists EmptyString.
    + destruct IH as [pre IH]. exists (x ++ sep ++ pre)%string.
      change (String.concat sep (x :: y :: l))
        with (x ++ sep ++ String.concat sep (y :: l))%string.
      change (last (x :: y :: l) EmptyString) with (last (y :: l) EmptyString).
      rewrite IH.
      now rewrite !append_assoc.
Qed.

Lemma last_segment_contains (branch : string) :
  contains (last_segment branch) branch = true.
Proof.
  unfold last_segment.
  destruct (concat_ends_with_last "/" (split "/" branch)) as [pre H].
  rewrite concat_split in H. rewrite H at 2. apply contains_suffix.
Qed.

(** ** The entries of the output *)

Section Output.

Variable env : Env.
Variable issues : list Issue.
Variable prs : list PullRequest.
Variable runs : list PipelineRun.

Lemma aggregate_in (r : AggregatedResult) :
  In r (aggregate env issues prs runs) ->
  exists i, In i issues /\
            r = finish env (pattern env issues) prs runs (identifier i) (draft env i).
Proof.
  unfold aggregate. rewrite in_map_iff. intros ([k d] & <- & Hin).
  destruct (drafts_in _ _ _ Hin) as (i & Hi & Hk & Hd). simpl in *. subst.
  now exists i.
Qed.

Lemma aggregate_ids :
  map ar_id (aggregate env issues prs runs) = issue_keys env issues.
Proof.
  unfold aggregate, issue_keys, dict_keys. rewrite map_map.
  apply map_ext_in. intros [k d] Hin.
  destruct (drafts_in _ _ _ Hin) as (i & _ & Hk & Hd). simpl in *. now subst.
Qed.

Lemma aggregate_distinct :
  NoDup (map identifier issues) ->
  aggregate env issues prs runs =
  map (fun i => finish env (pattern env issues) prs runs (identifier i) (draft env i))
      issues.
Proof.
  intros Hnd. unfold aggregate. rewrite drafts_distinct by assumption.
  now rewrite map_map.
Qed.

Lemma grouped_contains (pat k branch : string) :
  grouped env pat k branch = true ->
  re_search env pat branch = true /\ last_segment branch = k /\
  contains k branch = true.
Proof.
  unfold grouped. rewrite andb_true_iff, String.eqb_eq. intros [Hm <-].
  auto using last_segment_contains.
Qed.

Lemma key_pullrequests_in (pat k : string) (e : PullRequestEntry) :
  In e (key_pullrequests env pat prs k) <->
  exists p, In p prs /\ grouped env pat k (pull_branch p) = true /\
            e = pullrequest_entry p.
Proof.
  unfold key_pullrequests. rewrite in_map_iff. split.
  - intros (p & <- & Hp). apply filter_In in Hp. exists p. tauto.
  - intros (p & Hp & Hg & ->). exists p. rewrite filter_In. tauto.
Qed.

Lemma key_pipelines_in (pat k : string) (e : PipelineEntry) :
  In e (key_pipelines env pat runs k) <->
  exists p, In p runs /\ grouped env pat k (run_branch p) = true /\
            e = pipeline_entry env p.
Proof.
  unfold key_pipelines. rewrite in_map_iff. split.
  - intros (p & <- & Hp). apply filter_In in Hp. exists p. tauto.
  - intros (p & Hp & Hg & ->). exists p. rewrite filter_In. tauto.
Qed.

End Output.

Lemma kept_in (pipes : list PipelineEntry) (p : PipelineEntry) :
  In p (kept_pipelines pipes) -> In p pipes.
Proof.
  unfold kept_pipelines. rewrite in_app_iff, kept_migrations, filter_In.
  intros [[H _]|H]; auto. now apply kept_regular_in in H.
Qed.

Lemma map_injective_on {A B : Type} (f : A -> B) (l : list A) :
  NoDup (map f l) ->
  forall x y, In x l -> In y l -> f x = f y -> x = y.
Proof.
  induction l as [|a l IH]; simpl; [tauto|].
  intros Hnd x y Hx Hy Hxy. inversion Hnd as [|? ? Hnotin Hnd']; subst.
  destruct Hx as [<-|Hx], Hy as [<-|Hy]; auto.
  - exfalso. apply Hnotin. rewrite Hxy. now apply in_map.
  - exfalso. apply Hnotin. rewrite <- Hxy. now apply in_map.
Qed.

(** * The claims *)

Lemma pattern_distinct (env : Env) (issues : list Issue) :
  NoDup (map identifier issues) ->
  pattern env issues = String.concat "|" (map identifier issues).
Proof.
  intros Hnd. unfold pattern, issue_keys. rewrite drafts_distinct by assumption.
  unfold dict_keys. now rewrite map_map.
Qed.

(** C1, amended.  For a non-empty list of issues with pairwise distinct
    identifiers that, joined with [|], give a pattern that compiles, the
    aggregator returns one result per issue: the output has the length of
    the issues, its identifiers are the issues' identifiers in the same
    order, and the result at each position is the one built from the issue
    at that position. *)
Theorem parse_result_one_per_issue (env : Env) (issues : list Issue)
    (prs : list PullRequest) (runs : list PipelineRun) :
  issues <> [] ->
  NoDup (map identifier issues) ->
  re_compiles env (String.concat "|" (map identifier issues)) = true ->
  exists out,
    parse_result env (map issue_json issues) (map pullrequest_json prs)
                 (map pipeline_json runs) = Ok out /\
    List.length out = List.length issues /\
    map ar_id out = map identifier issues /\
    Forall2 (fun i r =>
               r = finish env (pattern env issues) prs runs (identifier i)
                          (draft env i))
            issues out.
Proof.
  intros _ Hnd Hpat. exists (aggregate env issues prs runs).
  split; [apply parse_result_wf; now rewrite pattern_distinct|].
  rewrite aggregate_distinct by assumption.
  split; [now rewrite length_map|].
  split; [now rewrite map_map|].
  clear Hnd Hpat. generalize (pattern env issues) as pat. intros pat.
  induction issues as [|i l IH]; simpl; constructor; auto.
Qed.

(** C5.  With no issue, the aggregator returns the empty list and raises
    nothing, whatever pull requests and pipeline runs it is given. *)
Theorem parse_result_no_issue (env : Env) (prs : list PullRequest)
    (runs : list PipelineRun) :
  parse_result env [] (map pullrequest_json prs) (map pipeline_json runs) = Ok [].
Proof. exact (parse_result_wf env [] prs runs (re_compiles_empty env)). Qed.

(** C7.  The aggregator returns when the pattern joined from the issue keys
    compiles, and whenever it returns: the identifiers of the output are
    pairwise distinct and each is the identifier of an input issue (of exactly one, when the issues have
    distinct identifiers), so no result is created for anything else; and a
    branch that matches no issue identifier is the branch of no pull request
    and of no pipeline run in any result. *)
Theorem unmatched_records_dropped (env : Env) (issues : list Issue)
    (prs : list PullRequest) (runs : list PipelineRun) :
  (re_compiles env (pattern env issues) = true ->
   exists out,
     parse_result env (map issue_json issues) (map pullrequest_json prs)
                  (map pipeline_json runs) = Ok out) /\
  forall out,
    parse_result env (map issue_json issues) (map pullrequest_json prs)
                 (map pipeline_json runs) = Ok out ->
    NoDup (map ar_id out) /\
    (forall r, In r out -> In (ar_id r) (map identifier issues)) /\
    (NoDup (map identifier issues) ->
     forall r, In r out ->
       exists i, In i issues /\ identifier i = ar_id r /\
                 forall i', In i' issues -> identifier i' = ar_id r -> i' = i) /\
    (forall branch, matches_no_identifier env issues branch ->
     forall r, In r out ->
       (forall e, In e (ar_pullrequests r) -> pr_branch e <> branch) /\
       (forall e, In e (ar_pipelines r) -> pl_branch e <> branch)).
Proof.
  split; [intros Hpat; eexists; now apply parse_result_wf|].
  intros out Hout. apply parse_result_returns in Hout.
  destruct Hout as [Hpat ->].
  split; [rewrite aggregate_ids; apply drafts_nodup|].
  assert (Hid : forall r, In r (aggregate env issues prs runs) ->
                          In (ar_id r) (map identifier issues)).
  { intros r Hr. apply issue_keys_in with (env := env).
    rewrite <- (aggregate_ids env issues prs runs). now apply in_map. }
  split; [exact Hid|].
  split.
  - intros Hnd r Hr. specialize (Hid r Hr).
    apply in_map_iff in Hid. destruct Hid as (i & Hi & Hin).
    exists i. repeat split; auto.
    intros i' Hin' Hi'. apply (map_injective_on identifier issues); congruence.
  - intros branch Hno r Hr.
    destruct (aggregate_in _ _ _ _ _ Hr) as (i & Hi & ->). simpl.
    assert (Hgrouped : grouped env (pattern env issues) (identifier i) branch
                       <> true).
    { intros Hg. apply grouped_contains in Hg. destruct Hg as (Hm & _ & Hc).
      destruct Hno as [Hno|Hno]; [congruence|].
      rewrite (Hno (identifier i)) in Hc by now apply in_map.
      discriminate. }
    split; intros e He Hb; apply Hgrouped.
    + apply key_pullrequests_in in He. destruct He as (p & _ & Hg & ->).
      simpl in Hb. now subst.
    + apply kept_in, key_pipelines_in in He. destruct He as (p & _ & Hg & ->).
      simpl in Hb. now subst.
Qed.

(** C10.  The aggregator returns when the pattern joined from the issue keys
    compiles, and whenever it returns: a pipeline run whose branch does not
    contain [migra] and whose build number is at most 0 is in no result's
    pipelines list, even when it is the only regular run of its key: every
    regular entry of a result has a positive build number. *)
Theorem nonpositive_build_never_kept (env : Env) (issues : list Issue)
    (prs : list PullRequest) (runs : list PipelineRun) :
  (re_compiles env (pattern env issues) = true ->
   exists out,
     parse_result env (map issue_json issues) (map pullrequest_json prs)
                  (map pipeline_json runs) = Ok out) /\
  forall out,
    parse_result env (map issue_json issues) (map pullrequest_json prs)
                 (map pipeline_json runs) = Ok out ->
    (forall r p, In r out -> In p (ar_pipelines r) ->
                 is_migration p = false -> 0 < pl_build_number p) /\
    (forall q, In q runs ->
               contains "migra" (run_branch q) = false ->
               run_build_number q <= 0 ->
               forall r, In r out -> ~ In (pipeline_entry env q) (ar_pipelines r)).
Proof.
  split; [intros Hpat; eexists; now apply parse_result_wf|].
  intros out Hout. apply parse_result_returns in Hout.
  destruct Hout as [Hpat ->].
  assert (Hpos : forall r p, In r (aggregate env issues prs runs) ->
                 In p (ar_pipelines r) -> is_migration p = false ->
                 0 < pl_build_number p).
  { intros r p Hr Hp Hm.
    destruct (aggregate_in _ _ _ _ _ Hr) as (i & Hi & ->). simpl in Hp.
    unfold kept_pipelines in Hp. rewrite in_app_iff, kept_migrations in Hp.
    destruct Hp as [Hp|Hp].
    - apply filter_In in Hp. destruct Hp as [_ Hp]. congruence.
    - apply kept_regular_in in Hp. tauto. }
  split; [exact Hpos|].
  intros q _ Hm Hle r Hr Hin.
  specialize (Hpos r (pipeline_entry env q) Hr Hin Hm). simpl in Hpos. lia.
Qed.

Lemma filter_regular_kept (pipes : list PipelineEntry) :
  filter is_regular (kept_pipelines pipes) = regular_pr (filter_pipelines pipes).
Proof.
  unfold kept_pipelines. rewrite filter_app, kept_migrations.
  assert (Hm : filter is_regular (filter is_migration pipes) = []).
  { induction pipes as [|p pipes IH]; simpl; auto.
    destruct (is_migration p) eqn:Hp; simpl; auto.
    unfold is_regular at 1. now rewrite Hp. }
  rewrite Hm. simpl.
  assert (Hall : forall p, In p (regular_pr (filter_pipelines pipes)) ->
                           is_regular p = true)
    by (intros p Hp; apply kept_regular_in in Hp; tauto).
  induction (regular_pr (filter_pipelines pipes)) as [|p l IH]; simpl; auto.
  rewrite (Hall p) by now left. f_equal. apply IH.
  intros q Hq. apply Hall. now right.
Qed.

Lemma filter_split {A : Type} (f : A -> bool) (l1 l2 : list A) (x : A) :
  f x = true -> filter f (l1 ++ x :: l2) = filter f l1 ++ x :: filter f l2.
Proof. intros Hx. rewrite filter_app. simpl. now rewrite Hx. Qed.

(** ** Splitting and joining *)

Lemma contains_char_cons (sep c : ascii) (s : string) :
  contains (String sep EmptyString) (String c s) =
  Ascii.eqb sep c || contains (String sep EmptyString) s.
Proof.
  simpl. destruct (ascii_dec sep c) as [->|Hne].
  - rewrite Ascii.eqb_refl. now destruct s.
  - apply Ascii.eqb_neq in Hne. now rewrite Hne.
Qed.

Lemma contains_char_empty (sep : ascii) :
  contains (String sep EmptyString) EmptyString = false.
Proof. reflexivity. Qed.

Lemma split_no_sep (sep : ascii) (s : string) :
  contains (String sep EmptyString) s = false -> split sep s = [s].
Proof.
  induction s as [|c s IH]; auto.
  rewrite contains_char_cons, orb_false_iff. intros [Hc Hs].
  simpl. rewrite Ascii.eqb_sym, Hc. now rewrite IH.
Qed.

Lemma split_app_sep (sep : ascii) (a b : string) :
  split sep (a ++ String sep b)%string = split sep a ++ split sep b.
Proof.
  induction a as [|c a IH]; simpl.
  - now rewrite Ascii.eqb_refl.
  - destruct (Ascii.eqb c sep); rewrite IH; [reflexivity|].
    pose proof (split_nonempty sep a) as Hne.
    destruct (split sep a) as [|w ws]; [contradiction|reflexivity].
Qed.

Lemma split_parts_no_sep (sep : ascii) (s : string) :
  Forall (fun w => contains (String sep EmptyString) w = false) (split sep s).
Proof.
  induction s as [|c s IH]; simpl.
  - repeat constructor.
  - destruct (Ascii.eqb c sep) eqn:Hc.
    + constructor; auto.
    + destruct (split sep s) as [|w ws]; [repeat constructor|].
      * rewrite contains_char_cons, Ascii.eqb_sym, Hc. reflexivity.
      * inversion IH; subst. constructor; auto.
        rewrite contains_char_cons, Ascii.eqb_sym, Hc. assumption.
Qed.

(** [sep.join(l).split(sep) == l] when [l] is not empty and no element
    contains [sep]. *)
Lemma split_concat (sep : ascii) (l : list string) :
  l <> [] ->
  Forall (fun w => contains (String sep EmptyString) w = false) l ->
  split sep (String.concat (String sep EmptyString) l) = l.
Proof.
  induction l as [|x l IH]; [congruence|]. intros _ Hall.
  inversion Hall as [|? ? Hx Hl]; subst.
  destruct l as [|y l].
  - simpl. now apply split_no_sep.
  - change (String.concat (String sep EmptyString) (x :: y :: l))
      with (x ++ String sep (String.concat (String sep EmptyString) (y :: l)))%string.
    rewrite split_app_sep, IH by (auto; discriminate).
    now rewrite (split_no_sep sep x).
Qed.

Lemma concat_last_or_suffix (sep : string) (l : list string) :
  l <> [] ->
  String.concat sep l = last l EmptyString \/
  exists pre, String.concat sep l = (pre ++ sep ++ last l EmptyString)%string.
Proof.
  induction l as [|x l IH]; [congruence|]. intros _.
  destruct l as [|y l]; [now left|].
  right.
  change (String.concat sep (x :: y :: l))
    with (x ++ sep ++ String.concat sep (y :: l))%string.
  change (last (x :: y :: l) EmptyString) with (last (y :: l) EmptyString).
  destruct IH as [->|[pre ->]]; [discriminate| |].
  - now exists x.
  - exists (x ++ sep ++ pre)%string. now rewrite !append_assoc.
Qed.

Lemma last_in {A : Type} (l : list A) (d : A) : l <> [] -> In (last l d) l.
Proof.
  induction l as [|x l IH]; [congruence|]. intros _.
  destruct l as [|y l]; [now left|].
  right. apply IH. discriminate.
Qed.

(** The key of a branch: it holds no [/], and the branch is the key or ends
    with [/] and the key. *)
Lemma last_segment_spec (branch k : string) :
  last_segment branch = k <->
  contains "/" k = false /\
  (branch = k \/ exists pre, branch = (pre ++ "/" ++ k)%string).
Proof.
  unfold last_segment. split.
  - intros <-. split.
    + pose proof (split_parts_no_sep "/" branch) as Hall.
      rewrite Forall_forall in Hall. apply Hall, last_in, split_nonempty.
    + pose proof (concat_last_or_suffix "/" (split "/" branch)
                    (split_nonempty "/" branch)) as H.
      rewrite concat_split in H. exact H.
  - intros [Hk [->|[pre ->]]].
    + now rewrite split_no_sep.
    + change (pre ++ "/" ++ k)%string with (pre ++ String "/" k)%string.
      rewrite split_app_sep, (split_no_sep "/" k) by assumption.
      apply last_last.
Qed.





(** C4, amended.  The aggregator returns when the pattern joined from the
    issue keys compiles, and whenever it returns: in every result, among the
    runs of the result's key whose branch does not contain [migra], none is kept when none has a build
    number above 0; otherwise exactly one is kept, the first of those with
    the largest build number: every run before it has a strictly smaller
    build number and every run after it a smaller or equal one.  For the
    build numbers 3, 7, 5 under one key, only the run with build number 7 is
    kept. *)
Theorem largest_positive_build_kept (env : Env) (issues : list Issue)
    (prs : list PullRequest) (runs : list PipelineRun) :
  (re_compiles env (pattern env issues) = true ->
   exists out,
     parse_result env (map issue_json issues) (map pullrequest_json prs)
                  (map pipeline_json runs) = Ok out) /\
  (forall out,
     parse_result env (map issue_json issues) (map pullrequest_json prs)
                  (map pipeline_json runs) = Ok out ->
     forall r, In r out ->
       let regular :=
         filter is_regular (key_pipelines env (pattern env issues) runs (ar_id r)) in
       let kept := filter is_regular (ar_pipelines r) in
       ((forall q, In q regular -> pl_build_number q <= 0) -> kept = []) /\
       (forall q0, In q0 regular -> 0 < pl_build_number q0 ->
          exists before p after,
            regular = before ++ p :: after /\
            kept = [p] /\
            0 < pl_build_number p /\
            (forall q, In q before -> pl_build_number q < pl_build_number p) /\
            (forall q, In q after -> pl_build_number q <= pl_build_number p))) /\
  (exists r,
     parse_result example_env [issue_json issue_ABC_1] []
       (map pipeline_json [run "feature/ABC-1" 3; run "feature/ABC-1" 7;
                           run "feature/ABC-1" 5]) = Ok [r] /\
     ar_pipelines r = [pipeline_entry example_env (run "feature/ABC-1" 7)]).
Proof.
  split; [intros Hpat; eexists; now apply parse_result_wf|]. split.
  - intros out Hout. apply parse_result_returns in Hout.
    destruct Hout as [Hpat ->].
    intros r Hr. destruct (aggregate_in _ _ _ _ _ Hr) as (i & Hi & ->). simpl.
    set (own := key_pipelines env (pattern env issues) runs (identifier i)).
    rewrite filter_regular_kept. unfold filter_pipelines.
    destruct (filter_regular own
                {| migrations := []; regular_pr := []; last_build_number := 0 |})
      as [(Hr' & _ & Hall)|(l1 & p & l2 & Hown & Hp & Hr' & _ & Hlt & H1 & H2)];
      simpl in *; rewrite Hr'.
    + split; auto.
      intros q0 Hq0 Hpos. apply filter_In in Hq0. destruct Hq0 as [Hin Hreg].
      specialize (Hall q0 Hin Hreg). lia.
    + split.
      * intros Hneg. specialize (Hneg p). rewrite Hown in Hneg.
        rewrite filter_split in Hneg by assumption.
        specialize (Hneg (in_elt _ _ _)). lia.
      * intros _ _ _. exists (filter is_regular l1), p, (filter is_regular l2).
        rewrite Hown. rewrite filter_split by assumption.
        repeat split; auto; intros q Hq; apply filter_In in Hq; destruct Hq; auto.
  - eexists. split; vm_compute; reflexivity.
Qed.

Lemma kept_migration_in (pipes : list PipelineEntry) (p : PipelineEntry) :
  In p pipes -> is_migration p = true -> In p (kept_pipelines pipes).
Proof.
  intros Hin Hm. unfold kept_pipelines. rewrite in_app_iff, kept_migrations.
  left. now apply filter_In.
Qed.

(** C2, amended.  The aggregator returns when the pattern joined from the
    issue keys compiles, and whenever it returns: a pull request is in the
    result of an issue exactly when
    the pattern compiled from all the issue identifiers is found in its
    branch and the last path segment of its branch is the issue's
    identifier; the result lists these pull requests in input order.  A
    pipeline run is in the result of an issue only under the same condition,
    and it is there whenever, in addition, its branch contains [migra].  The
    branch of every pull request and pipeline run of a result contains the
    result's identifier. *)
Theorem grouped_by_last_segment (env : Env) (issues : list Issue)
    (prs : list PullRequest) (runs : list PipelineRun) :
  (re_compiles env (pattern env issues) = true ->
   exists out,
     parse_result env (map issue_json issues) (map pullrequest_json prs)
                  (map pipeline_json runs) = Ok out) /\
  forall out,
    parse_result env (map issue_json issues) (map pullrequest_json prs)
                 (map pipeline_json runs) = Ok out ->
    forall r, In r out ->
      ar_pullrequests r =
        map pullrequest_entry
          (filter (fun p => re_search env (pattern env issues) (pull_branch p)
                            && (last_segment (pull_branch p) =? ar_id r)%string)
                  prs) /\
      (forall e, In e (ar_pullrequests r) <->
         exists p, In p prs /\ e = pullrequest_entry p /\
                   re_search env (pattern env issues) (pull_branch p) = true /\
                   last_segment (pull_branch p) = ar_id r) /\
      (forall e, In e (ar_pipelines r) ->
         exists p, In p runs /\ e = pipeline_entry env p /\
                   re_search env (pattern env issues) (run_branch p) = true /\
                   last_segment (run_branch p) = ar_id r) /\
      (forall p, In p runs ->
                 re_search env (pattern env issues) (run_branch p) = true ->
                 last_segment (run_branch p) = ar_id r ->
                 contains "migra" (run_branch p) = true ->
                 In (pipeline_entry env p) (ar_pipelines r)) /\
      (forall e, In e (ar_pullrequests r) -> contains (ar_id r) (pr_branch e) = true) /\
      (forall e, In e (ar_pipelines r) -> contains (ar_id r) (pl_branch e) = true).
Proof.
  split; [intros Hpat; eexists; now apply parse_result_wf|].
  intros out Hout. apply parse_result_returns in Hout.
  destruct Hout as [Hpat ->].
  intros r Hr. destruct (aggregate_in _ _ _ _ _ Hr) as (i & Hi & ->). simpl.
  set (pat := pattern env issues). set (k := identifier i).
  assert (Hpr : forall e, In e (key_pullrequests env pat prs k) <->
     exists p, In p prs /\ e = pullrequest_entry p /\
               re_search env pat (pull_branch p) = true /\
               last_segment (pull_branch p) = k).
  { intros e. rewrite key_pullrequests_in. split.
    - intros (p & Hp & Hg & ->). apply grouped_contains in Hg.
      exists p. tauto.
    - intros (p & Hp & -> & Hm & Hk). exists p. repeat split; auto.
      unfold grouped. rewrite Hm, Hk. apply String.eqb_refl. }
  assert (Hpl : forall e, In e (kept_pipelines (key_pipelines env pat runs k)) ->
     exists p, In p runs /\ e = pipeline_entry env p /\
               re_search env pat (run_branch p) = true /\
               last_segment (run_branch p) = k).
  { intros e He. apply kept_in, key_pipelines_in in He.
    destruct He as (p & Hp & Hg & ->). apply grouped_contains in Hg.
    exists p. tauto. }
  split; [reflexivity|].
  split; [exact Hpr|].
  split; [exact Hpl|].
  split.
  - intros p Hp Hm Hk Hmig. apply kept_migration_in; [|exact Hmig].
    apply key_pipelines_in. exists p. repeat split; auto.
    unfold grouped. rewrite Hm, Hk. apply String.eqb_refl.
  - split; intros e He.
    + apply Hpr in He. destruct He as (p & _ & -> & _ & <-).
      apply last_segment_contains.
    + apply Hpl in He. destruct He as (p & _ & -> & _ & <-).
      apply last_segment_contains.
Qed.

(** C3, amended.  With the literal engine, one issue [ABC-1] and the
    pipeline runs [feature/migra-ABC-1] (build 1) and [feature/ABC-1]
    (build 9), the result of [ABC-1] lists the regular run only: the
    migration run is grouped under [migra-ABC-1], which is no issue.  When
    the migration branch is [migra/ABC-1], the result lists both runs, the
    migration run first. *)
Theorem migration_needs_key_segment (host base : string) (i : Issue)
    (prs : list PullRequest) :
  identifier i = "ABC-1" ->
  let env := {| JIRA_API_HOST := host; BITBUCKET_BASE_URL := base;
                re_search := literal_search;
                re_compiles := literal_compiles;
                re_compiles_empty := eq_refl |} in
  (exists r,
     parse_result env [issue_json i] (map pullrequest_json prs)
       (map pipeline_json [run "feature/migra-ABC-1" 1; run "feature/ABC-1" 9])
     = Ok [r] /\
     ar_id r = "ABC-1" /\
     ar_pipelines r = [pipeline_entry env (run "feature/ABC-1" 9)]) /\
  (exists r,
     parse_result env [issue_json i] (map pullrequest_json prs)
       (map pipeline_json [run "migra/ABC-1" 1; run "feature/ABC-1" 9])
     = Ok [r] /\
     ar_id r = "ABC-1" /\
     ar_pipelines r = [pipeline_entry env (run "migra/ABC-1" 1);
                       pipeline_entry env (run "feature/ABC-1" 9)]).
Proof.
  intros Hid env.
  assert (Hpat : pattern env [i] = "ABC-1") by (rewrite <- Hid; reflexivity).
  split.
  - exists (finish env (pattern env [i]) prs
              [run "feature/migra-ABC-1" 1; run "feature/ABC-1" 9]
              (identifier i) (draft env i)).
    split; [apply (parse_result_wf env [i] prs); now rewrite Hpat|].
    split; [exact Hid|].
    cbn [finish ar_pipelines set_pullrequests set_pipelines].
    rewrite Hpat, Hid. reflexivity.
  - exists (finish env (pattern env [i]) prs
              [run "migra/ABC-1" 1; run "feature/ABC-1" 9]
              (identifier i) (draft env i)).
    split; [apply (parse_result_wf env [i] prs); now rewrite Hpat|].
    split; [exact Hid|].
    cbn [finish ar_pipelines set_pullrequests set_pipelines].
    rewrite Hpat, Hid. reflexivity.
Qed.

(** ** Records with a missing field *)

Lemma jira_body_raises (env : Env) (jira : value) :
  issue_lacks_field jira ->
  forall results, exists e, jira_body env results jira = Raise e.
Proof.
  intros Hlacks results. unfold jira_body.
  destruct (getitem jira "key") as [key_v|e] eqn:Hkey;
    [cbn [bind]|now exists e].
  destruct (getpath jira ["fields"; "status"; "name"]) as [v1|e] eqn:H1;
    [cbn [bind]|now exists e].
  destruct (getpath jira ["fields"; "issuetype"; "name"]) as [v2|e] eqn:H2;
    [cbn [bind]|now exists e].
  destruct (getpath jira ["fields"; "summary"]) as [v3|e] eqn:H3;
    [cbn [bind]|now exists e].
  destruct (getpath jira ["fields"; "reporter"; "displayName"]) as [v4|e] eqn:H4;
    [cbn [bind]|now exists e].
  destruct (getpath jira ["fields"; "assignee"; "displayName"]) as [v5|e] eqn:H5;
    [cbn [bind]|now exists e].
  exfalso. apply Exists_exists in Hlacks.
  destruct Hlacks as (path & Hin & k & Hk). simpl in Hin.
  destruct Hin as [<-|[<-|[<-|[<-|[<-|[<-|[]]]]]]]; try congruence.
  cbn [getpath] in Hk. rewrite Hkey in Hk. discriminate.
Qed.

Lemma parse_pullrequests_body_raises_branch (env : Env) (pat : string) (pr : value) :
  pullrequest_lacks_branch pr ->
  forall acc, exists e, parse_pullrequests_body env pat acc pr = Raise e.
Proof.
  intros [k Hk] acc. unfold parse_pullrequests_body. rewrite Hk. now exists (KeyError k).
Qed.

Lemma parse_pullrequests_body_raises_url (env : Env) (pat branch : string)
    (pr : value) :
  getpath pr ["source"; "branch"; "name"] = Ok (VStr branch) ->
  re_search env pat branch = true ->
  lacks pr ["links"; "html"; "href"] ->
  forall acc, exists e, parse_pullrequests_body env pat acc pr = Raise e.
Proof.
  intros Hb Hm [k Hk] acc. unfold parse_pullrequests_body.
  rewrite Hb. cbn [bind as_str]. rewrite Hm, Hk. now exists (KeyError k).
Qed.

Lemma parse_pipelines_body_raises (env : Env) (pat : string) (pipeline : value) :
  pipeline_lacks_field pipeline ->
  forall acc, exists e, parse_pipelines_body env pat acc pipeline = Raise e.
Proof.
  intros [[k Hk]|[k Hk]] acc; unfold parse_pipelines_body.
  - rewrite Hk. now exists (KeyError k).
  - destruct (getpath pipeline ["target"; "ref_name"]) as [v|e];
      [cbn [bind]|now exists e].
    cbn [getpath] in Hk.
    destruct (getitem pipeline "build_number") as [n|e]; [discriminate|].
    now exists e.
Qed.

Lemma parse_result_raises (env : Env)
    (jira_response pullrequests_response pipelines_response : list value) :
  read_field_missing env jira_response pullrequests_response pipelines_response ->
  exists e : exn,
    parse_result env jira_response pullrequests_response pipelines_response
    = Raise e.
Proof.
  intros Hmissing. unfold parse_result.
  destruct Hmissing as [Hj|Hrest].
  { destruct (for_each_raises (jira_body env) jira_response)
      with (s := @nil (string * AggregatedResult)) as [e He].
    - revert Hj. apply Exists_impl. intros j. apply jira_body_raises.
    - rewrite He. now exists e. }
  destruct (for_each (jira_body env) jira_response []) as [results|e] eqn:Hresults;
    [cbn [bind]|now exists e].
  destruct (forallb key_is_str jira_response); [|now exists TypeError].
  set (pat := String.concat "|" (dict_keys results)).
  destruct (re_compiles env pat); [|now exists ReError].
  assert (Hprs : Exists pullrequest_lacks_branch pullrequests_response \/
                 Exists (pullrequest_lacks_url env jira_response)
                        pullrequests_response ->
                 exists e, parse_pullrequests env pullrequests_response pat = Raise e).
  { intros H. apply for_each_raises.
    destruct H as [H|H]; revert H; apply Exists_impl; intros pr Hpr.
    - now apply parse_pullrequests_body_raises_branch.
    - destruct Hpr as (results' & branch & Hres & Hb & Hm & Hurl).
      rewrite Hresults in Hres. injection Hres as <-.
      now apply parse_pullrequests_body_raises_url with (branch := branch). }
  destruct Hrest as [H|[H|H]];
    try (destruct Hprs as [e ->]; [tauto|now exists e]).
  destruct (parse_pullrequests env pullrequests_response pat) as [groups|e];
    [cbn [bind]|now exists e].
  destruct (for_each_raises (parse_pipelines_body env pat) pipelines_response)
    with (s := @nil (string * list PipelineEntry)) as [e He].
  - revert H. apply Exists_impl. intros p. apply parse_pipelines_body_raises.
  - unfold parse_pipelines. rewrite He. now exists e.
Qed.

(** *** Which key a [KeyError] names *)

Lemma for_each_raise_inv {A S : Type} (body : S -> A -> result S) (xs : list A) :
  forall (s : S) (e : exn),
    for_each body xs s = Raise e ->
    exists x s', In x xs /\ body s' x = Raise e.
Proof.
  induction xs as [|x xs IH]; intros s e Hrun; simpl in Hrun; [discriminate|].
  destruct (body s x) as [s1|e1] eqn:Hx; simpl in Hrun.
  - destruct (IH s1 e Hrun) as (y & s' & Hy & Hbody).
    exists y, s'. split; [now right|assumption].
  - injection Hrun as <-. exists x, s. split; [now left|assumption].
Qed.

Lemma jira_body_key_error (env : Env) (results : dict AggregatedResult)
    (jira : value) (k : string) :
  jira_body env results jira = Raise (KeyError k) ->
  exists path, In path issue_paths /\ getpath jira path = Raise (KeyError k).
Proof.
  unfold jira_body, issue_paths.
  destruct (getitem jira "key") as [key_v|e] eqn:Hkey; cbn [bind].
  2:{ intros H. injection H as ->. exists ["key"]. split; [now left|].
      cbn [getpath]. now rewrite Hkey. }
  destruct (getpath jira ["fields"; "status"; "name"]) as [v1|e] eqn:H1;
    cbn [bind]; [|intros H; injection H as ->; eexists; split; [|exact H1]; simpl; tauto].
  destruct (getpath jira ["fields"; "issuetype"; "name"]) as [v2|e] eqn:H2;
    cbn [bind]; [|intros H; injection H as ->; eexists; split; [|exact H2]; simpl; tauto].
  destruct (getpath jira ["fields"; "summary"]) as [v3|e] eqn:H3;
    cbn [bind]; [|intros H; injection H as ->; eexists; split; [|exact H3]; simpl; tauto].
  destruct (getpath jira ["fields"; "reporter"; "displayName"]) as [v4|e] eqn:H4;
    cbn [bind]; [|intros H; injection H as ->; eexists; split; [|exact H4]; simpl; tauto].
  destruct (getpath jira ["fields"; "assignee"; "displayName"]) as [v5|e] eqn:H5;
    cbn [bind]; [|intros H; injection H as ->; eexists; split; [|exact H5]; simpl; tauto].
  destruct key_v; discriminate.
Qed.

Lemma parse_pullrequests_body_key_error (env : Env) (pat : string)
    (acc : dict (list PullRequestEntry)) (pr : value) (k : string) :
  parse_pullrequests_body env pat acc pr = Raise (KeyError k) ->
  exists path, In path pullrequest_paths /\ getpath pr path = Raise (KeyError k).
Proof.
  unfold parse_pullrequests_body, pullrequest_paths.
  destruct (getpath pr ["source"; "branch"; "name"]) as [branch_v|e] eqn:Hb;
    cbn [bind]; [|intros H; injection H as ->; eexists; split; [|exact Hb]; simpl; tauto].
  destruct branch_v as [| |branch| |]; cbn [as_str bind]; try discriminate.
  destruct (re_search env pat branch); [|discriminate].
  destruct (getpath pr ["links"; "html"; "href"]) as [url|e] eqn:Hu;
    cbn [bind]; [|intros H; injection H as ->; eexists; split; [|exact Hu]; simpl; tauto].
  intros H.
  pose proof (eq_trans (eq_sym H)
                (setdefault_append acc (last_segment branch)
                   {| pr_url := url; pr_branch := branch |})) as E.
  discriminate E.
Qed.

Lemma parse_pipelines_body_key_error (env : Env) (pat : string)
    (acc : dict (list PipelineEntry)) (pipeline : value) (k : string) :
  parse_pipelines_body env pat acc pipeline = Raise (KeyError k) ->
  exists path, In path pipeline_paths /\ getpath pipeline path = Raise (KeyError k).
Proof.
  unfold parse_pipelines_body, pipeline_paths.
  destruct (getpath pipeline ["target"; "ref_name"]) as [branch_v|e] eqn:Hb;
    cbn [bind]; [|intros H; injection H as ->; eexists; split; [|exact Hb]; simpl; tauto].
  destruct (getitem pipeline "build_number") as [build_v|e] eqn:Hn; cbn [bind].
  2:{ intros H. injection H as ->. exists ["build_number"].
      split; [simpl; tauto|]. cbn [getpath]. now rewrite Hn. }
  destruct branch_v as [| |branch| |]; cbn [as_str bind]; try discriminate.
  destruct (re_search env pat branch); [|discriminate].
  destruct build_v as [|n| | |]; cbn [as_int bind]; try discriminate.
  intros H.
  pose proof (eq_trans (eq_sym H)
                (setdefault_append acc (last_segment branch)
                   (pipeline_entry env (run branch n)))) as E.
  discriminate E.
Qed.

Lemma key_error_names_missing_key (env : Env)
    (jira_response pullrequests_response pipelines_response : list value)
    (k : string) :
  parse_result env jira_response pullrequests_response pipelines_response
  = Raise (KeyError k) ->
  key_missing jira_response pullrequests_response pipelines_response k.
Proof.
  unfold parse_result, key_missing.
  destruct (for_each (jira_body env) jira_response []) as [results|e] eqn:Hres;
    cbn [bind].
  2:{ intros H. injection H as ->. apply for_each_raise_inv in Hres.
      destruct Hres as (jira & s' & Hin & Hbody).
      apply jira_body_key_error in Hbody. destruct Hbody as (path & Hp & Hget).
      left. now exists jira, path. }
  destruct (forallb key_is_str jira_response); [|discriminate].
  set (pat := String.concat "|" (dict_keys results)).
  destruct (re_compiles env pat); [|discriminate].
  destruct (parse_pullrequests env pullrequests_response pat) as [Q|e] eqn:HQ;
    cbn [bind].
  2:{ intros H. injection H as ->. apply for_each_raise_inv in HQ.
      destruct HQ as (pr & s' & Hin & Hbody).
      apply parse_pullrequests_body_key_error in Hbody.
      destruct Hbody as (path & Hp & Hget).
      right. left. now exists pr, path. }
  destruct (parse_pipelines env pipelines_response pat) as [P|e] eqn:HP;
    cbn [bind]; [discriminate|].
  intros H. injection H as ->. apply for_each_raise_inv in HP.
  destruct HP as (pipeline & s' & Hin & Hbody).
  apply parse_pipelines_body_key_error in Hbody.
  destruct Hbody as (path & Hp & Hget).
  right. right. now exists pipeline, path.
Qed.

(** C6, amended.  For pipeline runs whose build number, where they have one,
    is an int: when some record lacks a field that the aggregator reads
    from it (one of the six fields of an issue; the branch name of a pull
    request, or its url when the pattern is found in its branch; the branch
    name or the build number of a pipeline run), the aggregator returns no
    result and raises an exception of the interpreter.  When this is a
    [KeyError], the key it names is missing from a record of the input, at
    one of the subscript chains that the aggregator reads; it names no
    collection.  Otherwise it is a [TypeError] or the [re.error] of a
    pattern that does not compile. *)
Theorem missing_read_field_raises (env : Env)
    (jira_response pullrequests_response pipelines_response : list value) :
  forallb build_number_is_int pipelines_response = true ->
  read_field_missing env jira_response pullrequests_response pipelines_response ->
  exists e : exn,
    parse_result env jira_response pullrequests_response pipelines_response
    = Raise e /\
    match e with
    | KeyError k =>
        key_missing jira_response pullrequests_response pipelines_response k
    | TypeError | ReError => True
    end.
Proof.
  intros _ Hmissing.
  destruct (parse_result_raises env _ _ _ Hmissing) as [e He].
  exists e. split; [exact He|].
  destruct e as [k| |]; auto.
  now apply key_error_names_missing_key with (env := env).
Qed.

(** * The claims on sample inputs *)

(** The end-to-end example: one issue, a pull request on its branch and one
    on a branch of no issue, no pipeline run. *)
Example parse_result_end_to_end :
  parse_result example_env [issue_json issue_ABC_1]
    (map pullrequest_json [pull "feature/ABC-1" "u1"; pull "feature/XYZ-9" "u2"])
    []
  = Ok [set_pullrequests (draft example_env issue_ABC_1)
          [{| pr_url := VStr "u1"; pr_branch := "feature/ABC-1" |}]].
Proof. vm_compute. reflexivity. Qed.

(** C1 as stated fails: the key [(] is no pattern, and the call raises
    [re.error] instead of returning a result for the issue. *)
Lemma unbalanced_key_raises :
  [issue_paren] <> [] /\
  NoDup (map identifier [issue_paren]) /\
  re_compiles example_env (String.concat "|" (map identifier [issue_paren]))
  = false /\
  parse_result example_env (map issue_json [issue_paren]) [] [] = Raise ReError.
Proof.
  split; [discriminate|]. split; [repeat constructor; simpl; tauto|].
  split; reflexivity.
Qed.

(** C1, amended, on two issues, a pull request and a pipeline run. *)
Lemma parse_result_one_per_issue_witness :
  [issue_ABC_1; issue_AJ_7] <> [] /\
  NoDup (map identifier [issue_ABC_1; issue_AJ_7]) /\
  re_compiles example_env
    (String.concat "|" (map identifier [issue_ABC_1; issue_AJ_7])) = true /\
  exists out,
    parse_result example_env (map issue_json [issue_ABC_1; issue_AJ_7])
      (map pullrequest_json [pull "feature/AJ-7" "u1"])
      (map pipeline_json [run "feature/ABC-1" 4]) = Ok out /\
    List.length out = 2%nat /\
    map ar_id out = ["ABC-1"; "AJ-7"].
Proof.
  assert (Hne : [issue_ABC_1; issue_AJ_7] <> []) by discriminate.
  assert (Hnd : NoDup (map identifier [issue_ABC_1; issue_AJ_7]))
    by (simpl; repeat constructor; simpl; intuition discriminate).
  split; [exact Hne|]. split; [exact Hnd|]. split; [reflexivity|].
  destruct (parse_result_one_per_issue example_env [issue_ABC_1; issue_AJ_7]
              [pull "feature/AJ-7" "u1"] [run "feature/ABC-1" 4] Hne Hnd eq_refl)
    as (out & Hrun & Hlen & Hids & _).
  exists out. auto.
Defined.

(** C2 as stated fails: the branch [feature/ABC-1-fix] contains [ABC-1] and
    the pattern is found in it, yet neither the pull request nor the
    pipeline run of that branch is in the result of [ABC-1]. *)
Lemma branch_containing_identifier_not_attached :
  contains "ABC-1" "feature/ABC-1-fix" = true /\
  re_search example_env (pattern example_env [issue_ABC_1]) "feature/ABC-1-fix"
  = true /\
  exists r,
    parse_result example_env [issue_json issue_ABC_1]
      [pullrequest_json (pull "feature/ABC-1-fix" "u1")]
      [pipeline_json (run "feature/ABC-1-fix" 4)] = Ok [r] /\
    ar_id r = "ABC-1" /\
    ar_pullrequests r = [] /\
    ar_pipelines r = [].
Proof.
  split; [reflexivity|]. split; [reflexivity|].
  eexists. split; [vm_compute; reflexivity|]. repeat split.
Qed.

(** C2, amended, on a pull request of the branch of the issue and one of a
    longer branch. *)
Lemma grouped_by_last_segment_witness :
  re_compiles example_env (pattern example_env [issue_ABC_1]) = true /\
  exists out,
    parse_result example_env (map issue_json [issue_ABC_1])
      (map pullrequest_json
         [pull "feature/ABC-1" "u1"; pull "feature/ABC-1-fix" "u2"])
      (map pipeline_json [run "feature/ABC-1" 4]) = Ok out /\
    forall r, In r out ->
      ar_pullrequests r =
        map pullrequest_entry
          (filter (fun p =>
                     re_search example_env (pattern example_env [issue_ABC_1])
                               (pull_branch p)
                     && (last_segment (pull_branch p) =? ar_id r)%string)
                  [pull "feature/ABC-1" "u1"; pull "feature/ABC-1-fix" "u2"]).
Proof.
  split; [reflexivity|].
  destruct (grouped_by_last_segment example_env [issue_ABC_1]
              [pull "feature/ABC-1" "u1"; pull "feature/ABC-1-fix" "u2"]
              [run "feature/ABC-1" 4]) as [Hret Hall].
  destruct (Hret eq_refl) as [out Hrun].
  exists out. split; [exact Hrun|].
  intros r Hr. exact (proj1 (Hall out Hrun r Hr)).
Defined.

(** C3 as stated fails: the migration run of [feature/migra-ABC-1] is not in
    the pipelines list of [ABC-1]. *)
Lemma migration_run_not_listed :
  exists r,
    parse_result example_env [issue_json issue_ABC_1] []
      (map pipeline_json [run "feature/migra-ABC-1" 1; run "feature/ABC-1" 9])
    = Ok [r] /\
    ar_id r = "ABC-1" /\
    ~ In (pipeline_entry example_env (run "feature/migra-ABC-1" 1))
         (ar_pipelines r).
Proof.
  eexists. split; [vm_compute; reflexivity|]. split; [reflexivity|].
  simpl. intros [H|[]]. discriminate H.
Qed.

(** C3, amended, on the sample issue. *)
Lemma migration_needs_key_segment_witness :
  identifier issue_ABC_1 = "ABC-1" /\
  exists r,
    parse_result example_env [issue_json issue_ABC_1] (map pullrequest_json [])
      (map pipeline_json [run "migra/ABC-1" 1; run "feature/ABC-1" 9])
    = Ok [r] /\
    ar_id r = "ABC-1" /\
    ar_pipelines r = [pipeline_entry example_env (run "migra/ABC-1" 1);
                      pipeline_entry example_env (run "feature/ABC-1" 9)].
Proof.
  split; [reflexivity|].
  exact (proj2 (migration_needs_key_segment "https://jira.example"
                  "https://bitbucket.example/repo" issue_ABC_1 [] eq_refl)).
Defined.

(** C4 as stated fails: the only run of [ABC-1] has build number 0, the
    largest of its key, and it is not kept. *)
Lemma largest_build_zero_dropped :
  key_pipelines example_env (pattern example_env [issue_ABC_1])
    [run "feature/ABC-1" 0] "ABC-1"
  = [pipeline_entry example_env (run "feature/ABC-1" 0)] /\
  is_regular (pipeline_entry example_env (run "feature/ABC-1" 0)) = true /\
  exists r,
    parse_result example_env [issue_json issue_ABC_1] []
      (map pipeline_json [run "feature/ABC-1" 0]) = Ok [r] /\
    ar_id r = "ABC-1" /\
    ar_pipelines r = [].
Proof.
  split; [reflexivity|]. split; [reflexivity|].
  eexists. split; [vm_compute; reflexivity|]. split; reflexivity.
Qed.

(** C4, amended, on the build numbers 3, 7, 5. *)
Lemma largest_positive_build_kept_witness :
  re_compiles example_env (pattern example_env [issue_ABC_1]) = true /\
  exists out,
    parse_result example_env (map issue_json [issue_ABC_1])
      (map pullrequest_json [])
      (map pipeline_json [run "feature/ABC-1" 3; run "feature/ABC-1" 7;
                          run "feature/ABC-1" 5]) = Ok out /\
    forall r, In r out ->
      (forall q, In q (filter is_regular
                         (key_pipelines example_env
                            (pattern example_env [issue_ABC_1])
                            [run "feature/ABC-1" 3; run "feature/ABC-1" 7;
                             run "feature/ABC-1" 5] (ar_id r))) ->
                 pl_build_number q <= 0) ->
      filter is_regular (ar_pipelines r) = [].
Proof.
  split; [reflexivity|].
  destruct (largest_positive_build_kept example_env [issue_ABC_1] []
              [run "feature/ABC-1" 3; run "feature/ABC-1" 7;
               run "feature/ABC-1" 5])
    as (Hret & Hall & _).
  destruct (Hret eq_refl) as [out Hrun].
  exists out. split; [exact Hrun|].
  intros r Hr. exact (proj1 (Hall out Hrun r Hr)).
Defined.

(** C7 on a pull request and a pipeline run of no issue. *)
Lemma unmatched_records_dropped_witness :
  re_compiles example_env (pattern example_env [issue_ABC_1; issue_AJ_7])
  = true /\
  exists out,
    parse_result example_env (map issue_json [issue_ABC_1; issue_AJ_7])
      (map pullrequest_json [pull "feature/XYZ-9" "u2"])
      (map pipeline_json [run "feature/XYZ-9" 3]) = Ok out /\
    NoDup (map ar_id out) /\
    forall r, In r out ->
      In (ar_id r) (map identifier [issue_ABC_1; issue_AJ_7]).
Proof.
  split; [reflexivity|].
  destruct (unmatched_records_dropped example_env [issue_ABC_1; issue_AJ_7]
              [pull "feature/XYZ-9" "u2"] [run "feature/XYZ-9" 3])
    as [Hret Hall].
  destruct (Hret eq_refl) as [out Hrun].
  destruct (Hall out Hrun) as (Hnd & Hids & _).
  exists out. auto.
Defined.



(** C10 on a regular run of build number 0. *)
Lemma nonpositive_build_never_kept_witness :
  re_compiles example_env (pattern example_env [issue_ABC_1]) = true /\
  exists out,
    parse_result example_env (map issue_json [issue_ABC_1])
      (map pullrequest_json [])
      (map pipeline_json [run "feature/ABC-1" 0]) = Ok out /\
    forall r p, In r out -> In p (ar_pipelines r) ->
                is_migration p = false -> 0 < pl_build_number p.
Proof.
  split; [reflexivity|].
  destruct (nonpositive_build_never_kept example_env [issue_ABC_1] []
              [run "feature/ABC-1" 0]) as [Hret Hall].
  destruct (Hret eq_refl) as [out Hrun].
  destruct (Hall out Hrun) as [Hpos _].
  exists out. auto.
Defined.

(** C6 as stated fails: a pull request without its url, on a branch in which
    the pattern is not found, is skipped and the aggregator returns
    normally; and a missing [name] raises the same exception whether it is
    missing in an issue or in a pull request. *)
Lemma missing_field_not_reported :
  lacks (pull_without_links "feature/XYZ-9") ["links"; "html"; "href"] /\
  parse_result example_env [issue_json issue_ABC_1]
    [pull_without_links "feature/XYZ-9"] []
  = Ok [draft example_env issue_ABC_1] /\
  parse_result example_env [issue_without_status_name "ABC-1"] [] []
  = Raise (KeyError "name") /\
  parse_result example_env [issue_json issue_ABC_1]
    [pull_without_branch_name "u1"] []
  = Raise (KeyError "name").
Proof.
  split; [exists "links"; reflexivity|].
  repeat split; vm_compute; reflexivity.
Qed.

(** C6, amended, on a pull request without its url on a branch of the
    issue. *)
Lemma missing_read_field_raises_witness :
  forallb build_number_is_int [] = true /\
  read_field_missing example_env [issue_json issue_ABC_1]
    [pull_without_links "feature/ABC-1"] [] /\
  exists e,
    parse_result example_env [issue_json issue_ABC_1]
      [pull_without_links "feature/ABC-1"] [] = Raise e /\
    match e with
    | KeyError k =>
        key_missing [issue_json issue_ABC_1] [pull_without_links "feature/ABC-1"]
                    [] k
    | TypeError | ReError => True
    end.
Proof.
  assert (Hmissing : read_field_missing example_env [issue_json issue_ABC_1]
                       [pull_without_links "feature/ABC-1"] []).
  { right. right. left. constructor.
    exists (drafts example_env [issue_ABC_1]), "feature/ABC-1".
    repeat split; try reflexivity. exists "links". reflexivity. }
  split; [reflexivity|]. split; [exact Hmissing|].
  exact (missing_read_field_raises example_env _ _ [] eq_refl Hmissing).
Defined.

(** * Further properties of the aggregator *)

Lemma for_each_app {A S : Type} (body : S -> A -> result S) (xs ys : list A) :
  forall s, for_each body (xs ++ ys) s = (s' <- for_each body xs s ;; for_each body ys s').
Proof.
  induction xs as [|x xs IH]; intros s; simpl; auto.
  destruct (body s x) as [s1|e]; simpl; auto.
Qed.

Lemma dict_get_in {V : Type} (d : dict V) (k : string) (v : V) :
  dict_get d k = Some v -> In (k, v) d.
Proof.
  induction d as [|[k' v'] d IH]; simpl; [discriminate|].
  destruct (String.eqb_spec k' k) as [->|]; intros H.
  - left; congruence.
  - right; auto.
Qed.

(** ** Issues with the same key *)

Lemma fresh_true (seen : list string) (k : string) :
  fresh seen k = true <-> ~ In k seen.
Proof.
  unfold fresh. rewrite negb_true_iff. split.
  - intros H Hin. assert (existsb (String.eqb k) seen = true); [|congruence].
    apply existsb_exists. exists k. split; auto. apply String.eqb_refl.
  - intros H. destruct (existsb (String.eqb k) seen) eqn:E; auto.
    apply existsb_exists in E. destruct E as (x & Hx & Hk).
    apply String.eqb_eq in Hk. subst. contradiction.
Qed.

Lemma fresh_false (seen : list string) (k : string) :
  fresh seen k = false <-> In k seen.
Proof.
  split; intros H.
  - destruct (in_dec string_dec k seen) as [|Hn]; auto.
    apply fresh_true in Hn. congruence.
  - destruct (fresh seen k) eqn:E; auto. apply fresh_true in E. contradiction.
Qed.

Lemma filter_twice {A : Type} (f g : A -> bool) (l : list A) :
  filter f (filter g l) = filter (fun x => g x && f x) l.
Proof.
  induction l as [|x l IH]; simpl; auto.
  destruct (g x); simpl; [destruct (f x)|]; now rewrite IH.
Qed.

(** A loop that stores one value per round lists the keys at their first
    occurrence. *)
Lemma fold_set_keys {A V : Type} (key : A -> string) (step : dict V -> A -> dict V)
    (xs : list A) :
  (forall acc a, In a xs -> exists v, step acc a = dict_set acc (key a) v) ->
  forall acc,
    dict_keys (fold_left step xs acc) =
    dict_keys acc ++ filter (fresh (dict_keys acc)) (dedup (map key xs)).
Proof.
  induction xs as [|a xs IH]; intros Hstep acc; simpl.
  - now rewrite app_nil_r.
  - destruct (Hstep acc a (or_introl eq_refl)) as [v ->].
    rewrite IH by (intros acc' a' Ha'; apply Hstep; now right).
    rewrite filter_twice.
    destruct (fresh (dict_keys acc) (key a)) eqn:Hfresh.
    + apply fresh_true in Hfresh.
      rewrite dict_keys_set_absent by assumption.
      rewrite <- app_assoc. simpl. do 2 f_equal.
      apply filter_ext. intros x. unfold fresh.
      rewrite existsb_app. simpl. rewrite orb_false_r, negb_orb.
      apply andb_comm.
    + apply fresh_false in Hfresh.
      rewrite dict_keys_set_present by assumption. f_equal.
      apply filter_ext. intros x.
      destruct (String.eqb_spec x (key a)) as [->|]; simpl; auto.
      now apply fresh_false.
Qed.

Lemma filter_all {A : Type} (f : A -> bool) (l : list A) :
  (forall x, In x l -> f x = true) -> filter f l = l.
Proof.
  induction l as [|x l IH]; simpl; intros H; auto.
  rewrite (H x) by now left. f_equal. apply IH. intros y Hy. apply H. now right.
Qed.

Lemma issue_keys_dedup (env : Env) (issues : list Issue) :
  issue_keys env issues = dedup (map identifier issues).
Proof.
  unfold issue_keys, drafts.
  rewrite (fold_set_keys identifier) by (intros acc a _; eauto).
  simpl. apply filter_all. intros x _. reflexivity.
Qed.

Lemma drafts_from_untouched (env : Env) (k : string) (issues : list Issue) :
  (forall j, In j issues -> identifier j <> k) ->
  forall acc,
    dict_get (fold_left (fun results i =>
                           dict_set results (identifier i) (draft env i))
                        issues acc) k = dict_get acc k.
Proof.
  induction issues as [|i issues IH]; intros Hne acc; simpl; auto.
  rewrite IH by (intros j Hj; apply Hne; now right).
  apply dict_get_set_other. intros ->. apply (Hne i); auto. now left.
Qed.

Lemma drafts_last (env : Env) (pre post : list Issue) (i : Issue) :
  (forall j, In j post -> identifier j <> identifier i) ->
  dict_get (drafts env (pre ++ i :: post)) (identifier i) = Some (draft env i).
Proof.
  intros Hne. unfold drafts. rewrite fold_left_app. simpl.
  rewrite drafts_from_untouched by assumption.
  apply dict_get_set_same.
Qed.

Lemma last_occurrence (issues : list Issue) (k : string) :
  In k (map identifier issues) ->
  exists pre i post,
    issues = pre ++ i :: post /\ identifier i = k /\
    forall j, In j post -> identifier j <> k.
Proof.
  induction issues as [|a issues IH]; simpl; [tauto|].
  intros Hin.
  destruct (in_dec string_dec k (map identifier issues)) as [Hlater|Hnot].
  - destruct (IH Hlater) as (pre & i & post & -> & Hi & Hpost).
    exists (a :: pre), i, post. auto.
  - destruct Hin as [Ha|Hin]; [|contradiction].
    exists [], a, issues. repeat split; auto.
    intros j Hj Hk. apply Hnot. rewrite <- Hk. now apply in_map.
Qed.

(** X1.  Issues may repeat a key.  The aggregator returns when the pattern
    joined from the keys compiles, and whenever it returns: the output has
    one result per distinct key, at
    the place of the key's first issue, and every result is the one built
    from the last issue with its key. *)
Theorem repeated_key_last_issue_wins (env : Env) (issues : list Issue)
    (prs : list PullRequest) (runs : list PipelineRun) :
  (re_compiles env (pattern env issues) = true ->
   exists out,
     parse_result env (map issue_json issues) (map pullrequest_json prs)
                  (map pipeline_json runs) = Ok out) /\
  forall out,
    parse_result env (map issue_json issues) (map pullrequest_json prs)
                 (map pipeline_json runs) = Ok out ->
    map ar_id out = dedup (map identifier issues) /\
    forall r, In r out ->
      exists pre i post,
        issues = pre ++ i :: post /\
        (forall j, In j post -> identifier j <> identifier i) /\
        r = finish env (pattern env issues) prs runs (identifier i) (draft env i).
Proof.
  split; [intros Hpat; eexists; now apply parse_result_wf|].
  intros out Hout. apply parse_result_returns in Hout.
  destruct Hout as [Hpat ->].
  split; [rewrite aggregate_ids; apply issue_keys_dedup|].
  intros r Hr. unfold aggregate in Hr. apply in_map_iff in Hr.
  destruct Hr as ([k d] & <- & Hin). simpl.
  assert (Hk : In k (map identifier issues)).
  { apply issue_keys_in with (env := env). apply (in_map fst) in Hin. exact Hin. }
  destruct (last_occurrence issues k Hk) as (pre & i & post & Hsplit & <- & Hpost).
  exists pre, i, post. repeat split; auto.
  pose proof (drafts_last env pre post i Hpost) as Hget.
  rewrite <- Hsplit in Hget. apply dict_get_in in Hget.
  assert (Hd : d = draft env i).
  { pose proof (drafts_nodup env issues) as Hnd. unfold issue_keys in Hnd.
    revert Hnd Hin Hget. generalize (drafts env issues) as l.
    induction l as [|[k' d'] l IH]; simpl; [tauto|].
    intros Hnd. inversion Hnd as [|? ? Hnotin Hnd']; subst.
    intros [H1|H1] [H2|H2].
    - congruence.
    - injection H1 as -> ->. exfalso. apply Hnotin.
      apply (in_map fst) in H2. exact H2.
    - injection H2 as -> ->. exfalso. apply Hnotin.
      apply (in_map fst) in H1. exact H1.
    - now apply IH. }
  now subst d.
Qed.

(** ** An issue without assignee *)

(** X2.  An issue whose assignee is [null] makes the whole call raise
    [TypeError], whatever follows it and whatever the pull requests and the
    pipeline runs are: no result is returned for any issue. *)
Theorem unassigned_issue_raises (env : Env) (before : list Issue) (i : Issue)
    (after pullrequests_response pipelines_response : list value) :
  parse_result env (map issue_json before ++ issue_json_unassigned i :: after)
               pullrequests_response pipelines_response
  = Raise TypeError.
Proof.
  unfold parse_result. rewrite for_each_app.
  rewrite (for_each_total _ _ _ (jira_body_issue env)).
  reflexivity.
Qed.

(** ** The groups of [parse_pullrequests] and [parse_pipelines] *)

Section Groups.

Context {A E : Type}.
Variable matched : A -> bool.
Variable key : A -> string.
Variable entry : A -> E.

Local Abbreviation grouping := (group_body matched key entry).

Lemma group_skip (xs : list A) : forall acc : dict (list E),
  fold_left grouping xs acc = fold_left grouping (filter matched xs) acc.
Proof.
  induction xs as [|x xs IH]; intros acc; simpl; auto.
  destruct (matched x) eqn:Hm; simpl; rewrite IH; auto.
  unfold group_body at 2. now rewrite Hm.
Qed.

Lemma group_keys (xs : list A) :
  dict_keys (fold_left grouping xs []) = dedup (map key (filter matched xs)).
Proof.
  rewrite group_skip, (fold_set_keys key).
  - simpl. apply filter_all. intros x _. reflexivity.
  - intros acc a Ha. apply filter_In in Ha. destruct Ha as [_ Hm].
    unfold group_body. rewrite Hm. eauto.
Qed.

Lemma dict_set_append_perm (acc : dict (list E)) (k : string) (e : E) :
  Permutation
    (List.concat (dict_values (dict_set acc k (or_empty (dict_get acc k) ++ [e]))))
    (List.concat (dict_values acc) ++ [e]).
Proof.
  induction acc as [|[k' l] acc IH]; simpl.
  - reflexivity.
  - destruct (k' =? k)%string; simpl.
    + rewrite <- !app_assoc. apply Permutation_app_head, Permutation_app_comm.
    + rewrite <- app_assoc. now apply Permutation_app_head.
Qed.

Lemma group_perm (xs : list A) : forall acc : dict (list E),
  Permutation (List.concat (dict_values (fold_left grouping xs acc)))
              (List.concat (dict_values acc) ++ map entry (filter matched xs)).
Proof.
  induction xs as [|x xs IH]; intros acc; simpl.
  - now rewrite app_nil_r.
  - rewrite IH. unfold group_body. destruct (matched x); simpl; auto.
    rewrite dict_set_append_perm, <- app_assoc. reflexivity.
Qed.

Lemma group_get_some (xs : list A) (k : string) (l : list E) :
  dict_get (fold_left grouping xs []) k = Some l ->
  l <> [] /\ l = selected matched key entry k xs.
Proof.
  rewrite group_get. simpl.
  destruct (selected matched key entry k xs) as [|e l']; [discriminate|].
  intros H. injection H as <-. split; [discriminate|reflexivity].
Qed.

End Groups.

(** X3.  On well-formed pull requests, [parse_pullrequests] returns a dict whose
    keys are the last path segments of the branches in which the pattern is
    found, each once, in the order of their first pull request; no group is
    empty, every group holds the pull requests of its key in input order,
    and the groups together hold each such pull request exactly once. *)
Theorem parse_pullrequests_groups (env : Env) (pat : string)
    (prs : list PullRequest) :
  let found := filter (fun p => re_search env pat (pull_branch p)) prs in
  exists groups,
    parse_pullrequests env (map pullrequest_json prs) pat = Ok groups /\
    dict_keys groups =
      dedup (map (fun p => last_segment (pull_branch p)) found) /\
    (forall k l, dict_get groups k = Some l ->
                 l <> [] /\ l = key_pullrequests env pat prs k) /\
    Permutation (List.concat (dict_values groups)) (map pullrequest_entry found).
Proof.
  intros found. eexists. split.
  - unfold parse_pullrequests.
    apply (for_each_total _ _ _ (parse_pullrequests_body_wf env pat)).
  - split; [apply group_keys|]. split.
    + intros k l Hget. apply group_get_some in Hget. exact Hget.
    + apply (group_perm _ _ _ prs []).
Qed.

(** X4.  On well-formed pipeline runs, [parse_pipelines] returns a dict whose
    keys are the last path segments of the branches in which the pattern is
    found, each once, in the order of their first run; no group is empty,
    every group holds the runs of its key in input order, and the groups
    together hold each such run exactly once. *)
Theorem parse_pipelines_groups (env : Env) (pat : string)
    (runs : list PipelineRun) :
  let found := filter (fun p => re_search env pat (run_branch p)) runs in
  exists groups,
    parse_pipelines env (map pipeline_json runs) pat = Ok groups /\
    dict_keys groups =
      dedup (map (fun p => last_segment (run_branch p)) found) /\
    (forall k l, dict_get groups k = Some l ->
                 l <> [] /\ l = key_pipelines env pat runs k) /\
    Permutation (List.concat (dict_values groups)) (map (pipeline_entry env) found).
Proof.
  intros found. eexists. split.
  - unfold parse_pipelines.
    apply (for_each_total _ _ _ (parse_pipelines_body_wf env pat)).
  - split; [apply group_keys|]. split.
    + intros k l Hget. apply group_get_some in Hget. exact Hget.
    + apply (group_perm _ _ _ runs []).
Qed.

(** ** Records in whose branch the pattern is not found *)

Lemma for_each_skip {A S : Type} (body : S -> A -> result S) (x : A)
    (before after : list A) :
  (forall s, body s x = Ok s) ->
  forall s, for_each body (before ++ x :: after) s = for_each body (before ++ after) s.
Proof.
  intros Hskip s. rewrite !for_each_app.
  destruct (for_each body before s) as [s'|e]; simpl; auto.
  now rewrite Hskip.
Qed.

(** X5.  A pull request and a pipeline run in whose branch the pattern compiled
    from the issue keys is not found change nothing in the outcome of the
    call, whatever else these two records hold or lack (the build number of
    the pipeline run is read before its branch is tested, so it has to be
    there). *)
Theorem unmatched_records_ignored (env : Env)
    (jira_response : list value) (results : dict AggregatedResult)
    (pr run build_number : value) (pr_branch_name run_branch_name : string)
    (prs_before prs_after runs_before runs_after : list value) :
  for_each (jira_body env) jira_response [] = Ok results ->
  getpath pr ["source"; "branch"; "name"] = Ok (VStr pr_branch_name) ->
  re_search env (String.concat "|" (dict_keys results)) pr_branch_name = false ->
  getpath run ["target"; "ref_name"] = Ok (VStr run_branch_name) ->
  getitem run "build_number" = Ok build_number ->
  re_search env (String.concat "|" (dict_keys results)) run_branch_name = false ->
  parse_result env jira_response (prs_before ++ pr :: prs_after)
               (runs_before ++ run :: runs_after)
  = parse_result env jira_response (prs_before ++ prs_after)
                 (runs_before ++ runs_after).
Proof.
  intros Hresults Hpr Hprm Hrun Hbuild Hrunm. unfold parse_result.
  rewrite Hresults. cbn [bind].
  unfold parse_pullrequests, parse_pipelines.
  rewrite (for_each_skip (parse_pullrequests_body env _) pr).
  - rewrite (for_each_skip (parse_pipelines_body env _) run); [reflexivity|].
    intros s. unfold parse_pipelines_body.
    rewrite Hrun, Hbuild. cbn [bind as_str]. now rewrite Hrunm.
  - intros s. unfold parse_pullrequests_body.
    rewrite Hpr. cbn [bind as_str]. now rewrite Hprm.
Qed.

(** X6.  The aggregator returns when the pattern joined from the issue keys
    compiles, and whenever it returns: the branch of every pull request and
    of every pipeline run of a result is the result's key, or ends with [/] followed by the key; a result
    whose key contains [/] has neither pull requests nor pipelines. *)
Theorem branch_ends_with_key (env : Env) (issues : list Issue)
    (prs : list PullRequest) (runs : list PipelineRun) :
  (re_compiles env (pattern env issues) = true ->
   exists out,
     parse_result env (map issue_json issues) (map pullrequest_json prs)
                  (map pipeline_json runs) = Ok out) /\
  forall out,
    parse_result env (map issue_json issues) (map pullrequest_json prs)
                 (map pipeline_json runs) = Ok out ->
    forall r, In r out ->
      (forall e, In e (ar_pullrequests r) ->
         pr_branch e = ar_id r \/
         exists pre, pr_branch e = (pre ++ "/" ++ ar_id r)%string) /\
      (forall e, In e (ar_pipelines r) ->
         pl_branch e = ar_id r \/
         exists pre, pl_branch e = (pre ++ "/" ++ ar_id r)%string) /\
      (contains "/" (ar_id r) = true ->
       ar_pullrequests r = [] /\ ar_pipelines r = []).
Proof.
  split; [intros Hpat; eexists; now apply parse_result_wf|].
  intros out Hout. apply parse_result_returns in Hout.
  destruct Hout as [Hpat ->].
  intros r Hr. destruct (aggregate_in _ _ _ _ _ Hr) as (i & Hi & ->). simpl.
  set (pat := pattern env issues). set (k := identifier i).
  assert (Hpr : forall e, In e (key_pullrequests env pat prs k) ->
                          last_segment (pr_branch e) = k).
  { intros e He. apply key_pullrequests_in in He.
    destruct He as (p & _ & Hg & ->). apply grouped_contains in Hg. tauto. }
  assert (Hpl : forall e, In e (kept_pipelines (key_pipelines env pat runs k)) ->
                          last_segment (pl_branch e) = k).
  { intros e He. apply kept_in, key_pipelines_in in He.
    destruct He as (p & _ & Hg & ->). apply grouped_contains in Hg. tauto. }
  split; [|split].
  - intros e He. apply Hpr, last_segment_spec in He. tauto.
  - intros e He. apply Hpl, last_segment_spec in He. tauto.
  - intros Hslash. split.
    + destruct (key_pullrequests env pat prs k) as [|e l]; auto.
      specialize (Hpr e (or_introl eq_refl)).
      apply last_segment_spec in Hpr. destruct Hpr as [Hno _]. congruence.
    + destruct (kept_pipelines (key_pipelines env pat runs k)) as [|e l]; auto.
      specialize (Hpl e (or_introl eq_refl)).
      apply last_segment_spec in Hpl. destruct Hpl as [Hno _]. congruence.
Qed.

(** ** The pattern of line 146 under the literal engine *)

Lemma contains_empty (s : string) : contains EmptyString s = true.
Proof. destruct s; reflexivity. Qed.

(** X7.  For keys without [|], the pattern joined from the keys is found in a
    string exactly when one of the keys occurs in it; joined from no key,
    the pattern is empty and is found in every string. *)
Theorem literal_pattern_is_containment (keys : list string) (s : string) :
  Forall (fun k => contains "|" k = false) keys ->
  literal_search (String.concat "|" keys) s =
  match keys with
  | [] => true
  | _ => existsb (fun k => contains k s) keys
  end.
Proof.
  intros Hall. unfold literal_search. destruct keys as [|k keys].
  - simpl. now rewrite contains_empty.
  - now rewrite split_concat by (auto; discriminate).
Qed.

Lemma literal_search_concat (keys : list string) (s : string) :
  keys <> [] ->
  Forall (fun k => contains "|" k = false) keys ->
  literal_search (String.concat "|" keys) s = existsb (fun k => contains k s) keys.
Proof.
  intros Hne Hall. unfold literal_search. now rewrite split_concat.
Qed.

Section LiteralEngine.

Variable env : Env.
Variable issues : list Issue.
Hypothesis literal : reads_literally env (pattern env issues).
Hypothesis no_bar : forall i, In i issues -> contains "|" (identifier i) = false.

Lemma issue_keys_no_bar :
  Forall (fun k => contains "|" k = false) (issue_keys env issues).
Proof.
  apply Forall_forall. intros k Hk. apply issue_keys_in in Hk.
  apply in_map_iff in Hk. destruct Hk as (i & <- & Hi). now apply no_bar.
Qed.

(** Under the key of an issue, the pattern test of lines 92 and 114 lets
    every branch pass whose last segment is the key. *)
Lemma grouped_literal (k branch : string) :
  In k (issue_keys env issues) ->
  grouped env (pattern env issues) k branch = (last_segment branch =? k)%string.
Proof.
  intros Hk. unfold grouped, pattern.
  destruct (String.eqb_spec (last_segment branch) k) as [Heq|Hne];
    [|apply andb_false_r].
  rewrite andb_true_r, (proj2 literal). unfold pattern.
  rewrite literal_search_concat; [|intros E; rewrite E in Hk; destruct Hk
                                  |apply issue_keys_no_bar].
  apply existsb_exists. exists k. split; auto.
  rewrite <- Heq. apply last_segment_contains.
Qed.

Lemma key_pullrequests_literal (prs : list PullRequest) (k : string) :
  In k (issue_keys env issues) ->
  key_pullrequests env (pattern env issues) prs k =
  map pullrequest_entry
    (filter (fun p => (last_segment (pull_branch p) =? k)%string) prs).
Proof.
  intros Hk. unfold key_pullrequests. f_equal.
  apply filter_ext. intros p. now apply grouped_literal.
Qed.

Lemma key_pipelines_literal (runs : list PipelineRun) (k : string) :
  In k (issue_keys env issues) ->
  key_pipelines env (pattern env issues) runs k =
  map (pipeline_entry env)
    (filter (fun p => (last_segment (run_branch p) =? k)%string) runs).
Proof.
  intros Hk. unfold key_pipelines. f_equal.
  apply filter_ext. intros p. now apply grouped_literal.
Qed.

End LiteralEngine.

(** X8.  When the pattern joined from the issue keys compiles and is read as
    the alternation of the keys, none of which holds [|], the pull requests
    of a result are exactly the pull requests whose branch has the result's
    key as last path segment, in input order, and its pipelines are selected
    from the pipeline runs with such a branch: the pattern test excludes
    none of them. *)
Theorem attached_when_last_segment_is_key (env : Env) (issues : list Issue)
    (prs : list PullRequest) (runs : list PipelineRun) :
  reads_literally env (pattern env issues) ->
  (forall i, In i issues -> contains "|" (identifier i) = false) ->
  exists out,
    parse_result env (map issue_json issues) (map pullrequest_json prs)
                 (map pipeline_json runs) = Ok out /\
    forall r, In r out ->
      ar_pullrequests r =
        map pullrequest_entry
          (filter (fun p => (last_segment (pull_branch p) =? ar_id r)%string) prs) /\
      ar_pipelines r =
        kept_pipelines
          (map (pipeline_entry env)
             (filter (fun p => (last_segment (run_branch p) =? ar_id r)%string)
                     runs)).
Proof.
  intros Hlit Hbar. exists (aggregate env issues prs runs).
  split; [apply parse_result_wf, Hlit|].
  intros r Hr.
  assert (Hk : In (ar_id r) (issue_keys env issues)).
  { rewrite <- (aggregate_ids env issues prs runs). now apply in_map. }
  destruct (aggregate_in _ _ _ _ _ Hr) as (i & Hi & ->). simpl in *.
  rewrite key_pullrequests_literal, key_pipelines_literal by assumption.
  split; reflexivity.
Qed.

(** X9.  When the pattern joined from the issue keys compiles and is read as
    the alternation of the keys, before and after an issue with a new key is
    appended to the issues, and no key holds [|], the new issue adds its
    result at the end of the output and leaves the results of the other
    issues as they were. *)
Theorem new_issue_keeps_other_results (env : Env) (issues : list Issue)
    (i : Issue) (prs : list PullRequest) (runs : list PipelineRun) :
  reads_literally env (pattern env issues) ->
  reads_literally env (pattern env (issues ++ [i])) ->
  (forall j, In j (issues ++ [i]) -> contains "|" (identifier j) = false) ->
  ~ In (identifier i) (map identifier issues) ->
  exists out r,
    parse_result env (map issue_json issues) (map pullrequest_json prs)
                 (map pipeline_json runs) = Ok out /\
    parse_result env (map issue_json (issues ++ [i])) (map pullrequest_json prs)
                 (map pipeline_json runs) = Ok (out ++ [r]) /\
    ar_id r = identifier i.
Proof.
  intros Hlit Hlit' Hbar Hnew.
  exists (aggregate env issues prs runs),
         (finish env (pattern env (issues ++ [i])) prs runs (identifier i)
                 (draft env i)).
  split; [apply parse_result_wf, Hlit|]. split; [|reflexivity].
  rewrite parse_result_wf by apply Hlit'. f_equal. unfold aggregate.
  assert (Hdrafts : drafts env (issues ++ [i]) =
                    drafts env issues ++ [(identifier i, draft env i)]).
  { unfold drafts. rewrite fold_left_app. simpl. apply dict_set_absent.
    intros Hin. apply Hnew. now apply issue_keys_in in Hin. }
  rewrite Hdrafts, map_app. simpl. f_equal.
  apply map_ext_in. intros [k d] Hin. simpl.
  assert (Hk : In k (issue_keys env issues))
    by (apply (in_map fst) in Hin; exact Hin).
  assert (Hk' : In k (issue_keys env (issues ++ [i]))).
  { unfold issue_keys. rewrite Hdrafts. unfold dict_keys. rewrite map_app.
    apply in_or_app. now left. }
  unfold finish.
  rewrite (key_pullrequests_literal env (issues ++ [i])),
          (key_pipelines_literal env (issues ++ [i])) by assumption.
  rewrite (key_pullrequests_literal env issues),
          (key_pipelines_literal env issues);
    auto; intros j Hj; apply Hbar, in_or_app; now left.
Qed.

(** ** Selecting twice *)

Lemma filter_body_migration (f : Filtered) (p : PipelineEntry) :
  is_migration p = true ->
  regular_pr (filter_body f p) = regular_pr f /\
  last_build_number (filter_body f p) = last_build_number f.
Proof.
  unfold is_migration, filter_body. intros ->. split; reflexivity.
Qed.

Lemma filter_migrations_only (pipes : list PipelineEntry) : forall f : Filtered,
  (forall p, In p pipes -> is_migration p = true) ->
  regular_pr (fold_left filter_body pipes f) = regular_pr f /\
  last_build_number (fold_left filter_body pipes f) = last_build_number f.
Proof.
  induction pipes as [|p pipes IH]; intros f Hall; simpl; auto.
  destruct (filter_body_migration f p (Hall p (or_introl eq_refl))) as [Hr Hl].
  destruct (IH (filter_body f p)) as [Hr' Hl'];
    [intros q Hq; apply Hall; now right|].
  split; congruence.
Qed.

Lemma filter_none {A : Type} (f : A -> bool) (l : list A) :
  (forall x, In x l -> f x = false) -> filter f l = [].
Proof.
  induction l as [|x l IH]; simpl; intros H; auto.
  rewrite (H x) by now left. apply IH. intros y Hy. apply H. now right.
Qed.

(** X10.  Lines 162-174 applied to the list they produced give that list again:
    the migration entries stay, and the regular entry that was kept has a
    build number above 0 and is kept again. *)
Theorem kept_pipelines_idempotent (pipes : list PipelineEntry) :
  kept_pipelines (kept_pipelines pipes) = kept_pipelines pipes.
Proof.
  unfold kept_pipelines at 1 3.
  set (kept := kept_pipelines pipes).
  assert (Hkept : kept = filter is_migration pipes
                         ++ regular_pr (filter_pipelines pipes))
    by (unfold kept, kept_pipelines; now rewrite kept_migrations).
  assert (Hreg : forall p, In p (regular_pr (filter_pipelines pipes)) ->
                           is_migration p = false /\ 0 < pl_build_number p).
  { intros p Hp. apply kept_regular_in in Hp. destruct Hp as (_ & Hp & Hpos).
    unfold is_regular in Hp. apply negb_true_iff in Hp. auto. }
  rewrite (kept_migrations kept), kept_migrations. f_equal.
  - rewrite Hkept, filter_app, filter_twice.
    rewrite (filter_ext _ is_migration) by (intros p; apply andb_diag).
    rewrite <- (app_nil_r (filter is_migration pipes)) at 2. f_equal.
    apply filter_none. intros p Hp. now apply Hreg.
  - unfold filter_pipelines at 1. rewrite Hkept, fold_left_app.
    pose proof (kept_regular_at_most_one pipes) as Hlen.
    destruct (filter_migrations_only (filter is_migration pipes)
                {| migrations := []; regular_pr := []; last_build_number := 0 |})
      as [Hr Hl].
    { intros p Hp. apply filter_In in Hp. tauto. }
    destruct (regular_pr (filter_pipelines pipes)) as [|p [|q l]];
      simpl in *; try lia; auto.
    destruct (Hreg p (or_introl eq_refl)) as [Hm Hpos].
    set (f := fold_left filter_body (filter is_migration pipes) _) in *.
    unfold filter_body. unfold is_migration in Hm. rewrite Hm, Hl.
    destruct (Z.ltb_spec 0 (pl_build_number p)); [reflexivity|lia].
Qed.

(** ** The output on arbitrary JSON *)

Lemma for_each_inv {A S : Type} (body : S -> A -> result S) (Inv : S -> Prop)
    (xs : list A) :
  (forall s x s', In x xs -> Inv s -> body s x = Ok s' -> Inv s') ->
  forall s s', Inv s -> for_each body xs s = Ok s' -> Inv s'.
Proof.
  induction xs as [|x xs IH]; intros Hbody s s' Hs Hrun; simpl in Hrun.
  - now injection Hrun as <-.
  - destruct (body s x) as [s1|e] eqn:Hx; [|discriminate]. simpl in Hrun.
    apply (IH (fun s0 y s1' Hy => Hbody s0 y s1' (or_intror Hy)) s1 s'); auto.
    apply (Hbody s x s1); auto. now left.
Qed.

Lemma jira_body_ok (env : Env) (results results' : dict AggregatedResult)
    (jira : value) :
  key_is_str jira = true ->
  jira_body env results jira = Ok results' ->
  exists d,
    getitem jira "key" = Ok (VStr (ar_id d)) /\
    results' = dict_set results (ar_id d) d /\
    ar_jira_url d = (JIRA_API_HOST env ++ "/browse/" ++ ar_id d)%string /\
    ar_pullrequests d = [] /\ ar_pipelines d = [].
Proof.
  unfold jira_body, key_is_str.
  destruct (getitem jira "key") as [key_v|e]; [cbn [bind]|discriminate].
  destruct key_v as [| |key| |]; try discriminate. intros _.
  destruct (getpath jira ["fields"; "status"; "name"]) as [v1|e];
    [cbn [bind]|discriminate].
  destruct (getpath jira ["fields"; "issuetype"; "name"]) as [v2|e];
    [cbn [bind]|discriminate].
  destruct (getpath jira ["fields"; "summary"]) as [v3|e];
    [cbn [bind]|discriminate].
  destruct (getpath jira ["fields"; "reporter"; "displayName"]) as [v4|e];
    [cbn [bind]|discriminate].
  destruct (getpath jira ["fields"; "assignee"; "displayName"]) as [v5|e];
    [cbn [bind]|discriminate].
  intros H. injection H as <-.
  exists {| ar_id := key; ar_status := v1; ar_type := v2; ar_title := v3;
            ar_reporter := v4; ar_assignee := v5;
            ar_jira_url := (JIRA_API_HOST env ++ "/browse/" ++ key)%string;
            ar_pullrequests := []; ar_pipelines := [] |}.
  repeat split.
Qed.

Lemma parse_pullrequests_body_ok (env : Env) (pat : string)
    (acc acc' : dict (list PullRequestEntry)) (pr : value) :
  parse_pullrequests_body env pat acc pr = Ok acc' ->
  acc' = acc \/
  exists branch url,
    getpath pr ["source"; "branch"; "name"] = Ok (VStr branch) /\
    getpath pr ["links"; "html"; "href"] = Ok url /\
    acc' = dict_set acc (last_segment branch)
             (or_empty (dict_get acc (last_segment branch))
                ++ [{| pr_url := url; pr_branch := branch |}]).
Proof.
  unfold parse_pullrequests_body.
  destruct (getpath pr ["source"; "branch"; "name"]) as [branch_v|e];
    [cbn [bind]|discriminate].
  destruct branch_v as [| |branch| |]; cbn [as_str bind]; try discriminate.
  destruct (re_search env pat branch); [|intros H; injection H as <-; now left].
  destruct (getpath pr ["links"; "html"; "href"]) as [url|e];
    [cbn [bind]|discriminate].
  intros H. right. exists branch, url. repeat split.
  pose proof (setdefault_append acc (last_segment branch)
                {| pr_url := url; pr_branch := branch |}) as E.
  cbv zeta in E, H. rewrite E in H. now injection H as <-.
Qed.

Lemma parse_pipelines_body_ok (env : Env) (pat : string)
    (acc acc' : dict (list PipelineEntry)) (pipeline : value) :
  parse_pipelines_body env pat acc pipeline = Ok acc' ->
  acc' = acc \/
  exists branch build_number,
    getpath pipeline ["target"; "ref_name"] = Ok (VStr branch) /\
    getitem pipeline "build_number" = Ok (VInt build_number) /\
    acc' = dict_set acc (last_segment branch)
             (or_empty (dict_get acc (last_segment branch))
                ++ [pipeline_entry env (run branch build_number)]).
Proof.
  unfold parse_pipelines_body.
  destruct (getpath pipeline ["target"; "ref_name"]) as [branch_v|e];
    [cbn [bind]|discriminate].
  destruct (getitem pipeline "build_number") as [build_v|e];
    [cbn [bind]|discriminate].
  destruct branch_v as [| |branch| |]; cbn [as_str bind]; try discriminate.
  destruct (re_search env pat branch); [|intros H; injection H as <-; now left].
  destruct build_v as [|n| | |]; cbn [as_int bind]; try discriminate.
  intros H. right. exists branch, n. repeat split.
  pose proof (eq_trans (eq_sym H)
                (setdefault_append acc (last_segment branch)
                   (pipeline_entry env (run branch n)))) as E.
  now injection E as ->.
Qed.

(** X11.  For three lists of JSON values built from null, integers, strings,
    arrays and objects, in which every build number present in a pipeline
    run is an integer: when the call returns, the keys of the results are
    pairwise distinct and each is the key of an input issue, the url of
    every result is built from its key, every pull request of a result
    comes from an input pull request whose branch has the result's key as
    last path segment, and every pipeline of a result comes from an input
    pipeline run with such a branch, with a url built from its build
    number. *)
Theorem output_comes_from_input (env : Env)
    (jira_response pullrequests_response pipelines_response : list value)
    (out : list AggregatedResult) :
  forallb build_number_is_int pipelines_response = true ->
  parse_result env jira_response pullrequests_response pipelines_response
  = Ok out ->
  NoDup (map ar_id out) /\
  forall r, In r out ->
    (exists jira, In jira jira_response /\
                  getitem jira "key" = Ok (VStr (ar_id r))) /\
    ar_jira_url r = (JIRA_API_HOST env ++ "/browse/" ++ ar_id r)%string /\
    (forall e, In e (ar_pullrequests r) ->
       last_segment (pr_branch e) = ar_id r /\
       exists pr, In pr pullrequests_response /\
                  getpath pr ["source"; "branch"; "name"] = Ok (VStr (pr_branch e)) /\
                  getpath pr ["links"; "html"; "href"] = Ok (pr_url e)) /\
    (forall e, In e (ar_pipelines r) ->
       last_segment (pl_branch e) = ar_id r /\
       pl_url e = ((BITBUCKET_BASE_URL env ++ "/pipelines/results") ++ "/"
                     ++ str_of_int (pl_build_number e))%string /\
       exists pipeline, In pipeline pipelines_response /\
                  getpath pipeline ["target"; "ref_name"] = Ok (VStr (pl_branch e)) /\
                  getitem pipeline "build_number" = Ok (VInt (pl_build_number e))).
Proof.
  unfold parse_result. intros _ Hrun.
  destruct (for_each (jira_body env) jira_response []) as [results|e] eqn:Hres;
    [cbn [bind] in Hrun|discriminate].
  destruct (forallb key_is_str jira_response) eqn:Hkeys; [|discriminate].
  cbv zeta in Hrun.
  set (pat := String.concat "|" (dict_keys results)) in *.
  destruct (re_compiles env pat); [|discriminate].
  destruct (parse_pullrequests env pullrequests_response pat) as [Q|e] eqn:HQ;
    [cbn [bind] in Hrun|discriminate].
  destruct (parse_pipelines env pipelines_response pat) as [P|e] eqn:HP;
    [cbn [bind] in Hrun|discriminate].
  injection Hrun as <-.
  pose (InvR := fun res : dict AggregatedResult =>
               NoDup (dict_keys res) /\
               forall k d, In (k, d) res ->
                 ar_id d = k /\
                 ar_jira_url d = (JIRA_API_HOST env ++ "/browse/" ++ k)%string /\
                 ar_pullrequests d = [] /\ ar_pipelines d = [] /\
                 exists jira, In jira jira_response /\
                              getitem jira "key" = Ok (VStr k)).
  assert (IR : InvR results).
  { apply (for_each_inv (jira_body env) InvR jira_response) with (s := []);
      [| |exact Hres]; unfold InvR.
    - intros s x s' Hx [Hnd Hall] Hbody.
      apply jira_body_ok in Hbody;
        [|exact (proj1 (forallb_forall _ _) Hkeys x Hx)].
      destruct Hbody as (d & Hkey & -> & Hurl & Hprs & Hpls). split.
      + now apply dict_keys_set_nodup.
      + intros k d' Hin. apply dict_set_in in Hin.
        destruct Hin as [Hin|[-> ->]]; auto.
        repeat split; auto. now exists x.
    - split; [constructor|intros ? ? []]. }
  pose (InvQ := fun groups : dict (list PullRequestEntry) =>
               NoDup (dict_keys groups) /\
               forall k l e, In (k, l) groups -> In e l ->
                 last_segment (pr_branch e) = k /\
                 exists pr, In pr pullrequests_response /\
                   getpath pr ["source"; "branch"; "name"] = Ok (VStr (pr_branch e)) /\
                   getpath pr ["links"; "html"; "href"] = Ok (pr_url e)).
  assert (IQ : InvQ Q).
  { apply (for_each_inv (parse_pullrequests_body env pat) InvQ
             pullrequests_response) with (s := []);
      [| |exact HQ]; unfold InvQ.
    - intros s x s' Hx [Hnd Hall] Hbody. apply parse_pullrequests_body_ok in Hbody.
      destruct Hbody as [->|(branch & url & Hb & Hu & ->)]; [now split|]. split.
      + now apply dict_keys_set_nodup.
      + intros k l e Hin He. apply dict_set_in in Hin.
        destruct Hin as [Hin|[-> ->]]; [eauto|].
        apply in_app_or in He. destruct He as [He|[<-|[]]].
        * destruct (dict_get s (last_segment branch)) as [old|] eqn:Hold;
            [|destruct He].
          apply dict_get_in in Hold. eauto.
        * simpl. split; auto. now exists x.
    - split; [constructor|intros ? ? ? []]. }
  pose (InvP := fun groups : dict (list PipelineEntry) =>
               NoDup (dict_keys groups) /\
               forall k l e, In (k, l) groups -> In e l ->
                 last_segment (pl_branch e) = k /\
                 pl_url e = ((BITBUCKET_BASE_URL env ++ "/pipelines/results") ++ "/"
                               ++ str_of_int (pl_build_number e))%string /\
                 exists pipeline, In pipeline pipelines_response /\
                   getpath pipeline ["target"; "ref_name"] = Ok (VStr (pl_branch e)) /\
                   getitem pipeline "build_number" = Ok (VInt (pl_build_number e))).
  assert (IP : InvP P).
  { apply (for_each_inv (parse_pipelines_body env pat) InvP
             pipelines_response) with (s := []);
      [| |exact HP]; unfold InvP.
    - intros s x s' Hx [Hnd Hall] Hbody. apply parse_pipelines_body_ok in Hbody.
      destruct Hbody as [->|(branch & n & Hb & Hn & ->)]; [now split|]. split.
      + now apply dict_keys_set_nodup.
      + intros k l e Hin He. apply dict_set_in in Hin.
        destruct Hin as [Hin|[-> ->]]; [eauto|].
        apply in_app_or in He. destruct He as [He|[<-|[]]].
        * destruct (dict_get s (last_segment branch)) as [old|] eqn:Hold;
            [|destruct He].
          apply dict_get_in in Hold. eauto.
        * simpl. repeat split; auto. now exists x.
    - split; [constructor|intros ? ? ? []]. }
  unfold InvR, InvQ, InvP in *. clear InvR InvQ InvP.
  destruct IR as [Hnd IR], IQ as [HndQ IQ], IP as [HndP IP].
  rewrite (fold_left_ext_eq merge_pipelines_body
             (merge_body (fun r pipes =>
                set_pipelines r ((ar_pipelines r ++ migrations (filter_pipelines pipes))
                                   ++ regular_pr (filter_pipelines pipes)))))
    by (intros s [k x]; reflexivity).
  rewrite (fold_left_ext_eq merge_pullrequests_body (merge_body set_pullrequests))
    by (intros s [k x]; reflexivity).
  rewrite (merge_map _ P results) by assumption.
  rewrite merge_map;
    [|assumption|unfold dict_keys; rewrite map_map; exact Hnd].
  unfold dict_values. rewrite !map_map. cbn [fst snd]. split.
  - rewrite (map_ext_in _ fst); [exact Hnd|].
    intros [k d] Hin. destruct (IR k d Hin) as (Hid & _). cbn [fst snd].
    unfold merged.
    destruct (dict_get Q k); destruct (dict_get P k); exact Hid.
  - intros r Hr. apply in_map_iff in Hr. destruct Hr as ([k d] & <- & Hin).
    cbn [fst snd]. destruct (IR k d Hin) as (Hid & Hurl & Hprs & Hpls & Hj).
    assert (Hid' : ar_id (merged set_pullrequests Q k
                     (merged (fun r pipes =>
                        set_pipelines r
                          ((ar_pipelines r ++ migrations (filter_pipelines pipes))
                             ++ regular_pr (filter_pipelines pipes))) P k d)) = k).
    { unfold merged. destruct (dict_get Q k); destruct (dict_get P k); exact Hid. }
    rewrite Hid'. split; [exact Hj|]. split; [|split].
    + unfold merged. destruct (dict_get Q k); destruct (dict_get P k); exact Hurl.
    + intros e He. unfold merged in He.
      destruct (dict_get Q k) as [prs|] eqn:HgetQ.
      * apply dict_get_in in HgetQ. simpl in He. eauto.
      * destruct (dict_get P k); simpl in He; rewrite Hprs in He; destruct He.
    + intros e He. unfold merged in He.
      assert (He' : In e (ar_pipelines (match dict_get P k with
                      | Some x => set_pipelines d
                          ((ar_pipelines d ++ migrations (filter_pipelines x))
                             ++ regular_pr (filter_pipelines x))
                      | None => d end)))
        by (destruct (dict_get Q k); exact He).
      clear He. destruct (dict_get P k) as [pipes|] eqn:HgetP.
      * apply dict_get_in in HgetP. simpl in He'. rewrite Hpls in He'.
        simpl in He'. apply (IP k pipes e HgetP). now apply kept_in.
      * rewrite Hpls in He'. destruct He'.
Qed.

(** * The text report *)

Lemma append_nil_r (s : string) : (s ++ EmptyString)%string = s.
Proof. induction s as [|c s IH]; simpl; congruence. Qed.

Lemma format_from (result : list Report) : forall output : string,
  fold_left (fun output issue => (output ++ format_issue issue)%string)
            result output
  = (output ++ format_result_output result)%string.
Proof.
  unfold format_result_output.
  induction result as [|issue result IH]; intros output; simpl.
  - now rewrite append_nil_r.
  - rewrite IH, (IH (format_issue issue)). now rewrite append_assoc.
Qed.

Lemma format_app (first rest : list Report) :
  format_result_output (first ++ rest) =
  (format_result_output first ++ format_result_output rest)%string.
Proof.
  unfold format_result_output at 1. rewrite fold_left_app.
  apply format_from.
Qed.

(** X12.  The report of a list is the report of its first part followed by the
    report of the rest: every result is printed as a block of its own, in
    the order of the list. *)
Theorem format_result_output_app (first rest : list Report) :
  format_result_output (first ++ rest) =
  (format_result_output first ++ format_result_output rest)%string.
Proof.
  unfold format_result_output at 1. rewrite fold_left_app.
  apply format_from.
Qed.

Lemma concat_empty_cons (x : string) (l : list string) :
  String.concat EmptyString (x :: l) = (x ++ String.concat EmptyString l)%string.
Proof. destruct l; simpl; [now rewrite append_nil_r|reflexivity]. Qed.

Lemma count_char_app (c : ascii) (a b : string) :
  count_char c (a ++ b)%string = (count_char c a + count_char c b)%nat.
Proof. induction a as [|x a IH]; simpl; [reflexivity|]. rewrite IH. lia. Qed.

Lemma count_char_substring (c : ascii) (s : string) : forall n m : nat,
  (count_char c (substring n m s) <= count_char c s)%nat.
Proof.
  induction s as [|x s IH]; intros [|n] [|m]; simpl; try lia.
  - specialize (IH 0%nat m). lia.
  - specialize (IH n 0%nat). lia.
  - specialize (IH n (S m)). lia.
Qed.

Lemma count_links (links : list Link) :
  Forall link_one_line links ->
  count_char newline
    (String.concat EmptyString
       (map (fun p => "- " ++ link_url p ++ " (" ++ link_branch p ++ ")"
                        ++ String newline EmptyString)%string links))
  = List.length links.
Proof.
  induction 1 as [|p links [Hu Hb] Hall IH]; [reflexivity|].
  rewrite map_cons, concat_empty_cons, count_char_app, IH.
  rewrite !count_char_app. unfold one_line in Hu, Hb. rewrite Hu, Hb.
  reflexivity.
Qed.

Lemma count_section (title : string) (links : list Link) :
  one_line title ->
  Forall link_one_line links ->
  count_char newline (format_section (title ++ String newline EmptyString) links)
  = section_lines links.
Proof.
  intros Ht Hall. destruct links as [|p links]; [reflexivity|].
  unfold format_section, section_lines.
  rewrite !count_char_app, count_links by assumption.
  unfold one_line in Ht. rewrite Ht. reflexivity.
Qed.

Lemma count_issue (issue : Report) :
  report_one_line issue ->
  count_char newline (format_issue issue)
  = (6 + section_lines (rp_pullrequests issue)
       + section_lines (rp_pipelines issue))%nat.
Proof.
  intros (Hid & Hst & Hty & Hti & Hre & Has & Hur & Hprs & Hpls).
  unfold format_issue. cbv zeta.
  rewrite !count_char_app.
  rewrite (count_section "Pull Requests:"), (count_section "Pipelines:")
    by (assumption || reflexivity).
  pose proof (count_char_substring newline (rp_title issue) 0 85) as Hsub.
  unfold one_line in *. rewrite Hid, Hst, Hty, Hre, Has, Hur.
  assert (Hcut : count_char newline (substring 0 85 (rp_title issue)) = 0%nat)
    by lia.
  rewrite Hcut. reflexivity.
Qed.

(** X13.  When no field of a result holds a line break, the number of line
    breaks in the report is the sum, over the results, of six and, for the
    pull requests and for the pipelines each, of nothing when the list is
    empty and of one more than its length otherwise. *)
Theorem format_result_output_lines (result : list Report) :
  Forall report_one_line result ->
  count_char newline (format_result_output result)
  = list_sum (map (fun issue =>
                     6 + section_lines (rp_pullrequests issue)
                       + section_lines (rp_pipelines issue))%nat
                  result).
Proof.
  induction 1 as [|issue result Hissue Hall IH]; [reflexivity|].
  change (issue :: result) with ([issue] ++ result).
  rewrite format_app, count_char_app, IH.
  change (format_result_output [issue]) with (format_issue issue).
  rewrite count_issue by assumption. reflexivity.
Qed.

(** * The request to the repository host *)

Lemma ends_with_snoc (c : ascii) (s : string) :
  ends_with c (s ++ String c EmptyString)%string = true.
Proof.
  induction s as [|a s IH]; simpl.
  - apply Ascii.eqb_refl.
  - destruct s; simpl in *; assumption.
Qed.

Lemma drop_last_snoc (c : ascii) (s : string) :
  drop_last (s ++ String c EmptyString)%string = s.
Proof.
  induction s as [|a s IH]; simpl; auto.
  destruct s; simpl in *; congruence.
Qed.

(** X14.  An endpoint is requested at the same url with and without a slash at
    its end. *)
Theorem trailing_slash_dropped (BITBUCKET_API_BASE_URL endpoint : string) :
  ends_with "/" endpoint = false ->
  bitbucket_request_url BITBUCKET_API_BASE_URL (endpoint ++ "/")
  = bitbucket_request_url BITBUCKET_API_BASE_URL endpoint.
Proof.
  intros Hend. unfold bitbucket_request_url.
  now rewrite ends_with_snoc, drop_last_snoc, Hend.
Qed.

(** * Further properties on sample inputs *)

(** X5 on a pull request without links and a pipeline run of no issue. *)
Lemma unmatched_records_ignored_witness :
  parse_result example_env [issue_json issue_ABC_1]
    ([pullrequest_json (pull "feature/ABC-1" "u1")]
       ++ pull_without_links "feature/XYZ-9" :: [])
    ([] ++ pipeline_json (run "feature/XYZ-9" 3)
        :: [pipeline_json (run "feature/ABC-1" 4)])
  = parse_result example_env [issue_json issue_ABC_1]
      ([pullrequest_json (pull "feature/ABC-1" "u1")] ++ [])
      ([] ++ [pipeline_json (run "feature/ABC-1" 4)]).
Proof.
  apply (unmatched_records_ignored example_env [issue_json issue_ABC_1]
           (drafts example_env [issue_ABC_1])
           (pull_without_links "feature/XYZ-9")
           (pipeline_json (run "feature/XYZ-9" 3)) (VInt 3)
           "feature/XYZ-9" "feature/XYZ-9");
    reflexivity.
Defined.

(** X1 on two issues with the key [ABC-1]. *)
Lemma repeated_key_last_issue_wins_witness :
  re_compiles example_env (pattern example_env [issue_ABC_1; issue_ABC_1])
  = true /\
  exists out,
    parse_result example_env (map issue_json [issue_ABC_1; issue_ABC_1])
      (map pullrequest_json []) (map pipeline_json []) = Ok out /\
    map ar_id out = dedup (map identifier [issue_ABC_1; issue_ABC_1]).
Proof.
  split; [reflexivity|].
  destruct (repeated_key_last_issue_wins example_env [issue_ABC_1; issue_ABC_1]
              [] []) as [Hret Hall].
  destruct (Hret eq_refl) as [out Hrun].
  destruct (Hall out Hrun) as [Hids _].
  exists out. auto.
Defined.

(** X6 on a pull request of the branch of the issue. *)
Lemma branch_ends_with_key_witness :
  re_compiles example_env (pattern example_env [issue_ABC_1]) = true /\
  exists out,
    parse_result example_env (map issue_json [issue_ABC_1])
      (map pullrequest_json [pull "feature/ABC-1" "u1"])
      (map pipeline_json []) = Ok out /\
    forall r, In r out ->
      forall e, In e (ar_pullrequests r) ->
        pr_branch e = ar_id r \/
        exists pre, pr_branch e = (pre ++ "/" ++ ar_id r)%string.
Proof.
  split; [reflexivity|].
  destruct (branch_ends_with_key example_env [issue_ABC_1]
              [pull "feature/ABC-1" "u1"] []) as [Hret Hall].
  destruct (Hret eq_refl) as [out Hrun].
  exists out. split; [exact Hrun|].
  intros r Hr. exact (proj1 (Hall out Hrun r Hr)).
Defined.

(** X7 on two keys. *)
Lemma literal_pattern_is_containment_witness :
  literal_search (String.concat "|" ["ABC-1"; "AJ-7"]) "feature/AJ-7"
  = existsb (fun k => contains k "feature/AJ-7") ["ABC-1"; "AJ-7"].
Proof.
  apply (literal_pattern_is_containment ["ABC-1"; "AJ-7"] "feature/AJ-7").
  repeat constructor.
Defined.

Lemma sample_keys_no_bar (i : Issue) :
  In i [issue_ABC_1; issue_AJ_7] -> contains "|" (identifier i) = false.
Proof. intros [<-|[<-|[]]]; reflexivity. Defined.

(** X8 on the two sample issues. *)
Lemma attached_when_last_segment_is_key_witness :
  exists out,
    parse_result example_env (map issue_json [issue_ABC_1; issue_AJ_7])
      (map pullrequest_json [pull "feature/AJ-7" "u1"; pull "AJ-7/fix" "u2"])
      (map pipeline_json [run "feature/ABC-1" 4]) = Ok out /\
    forall r, In r out ->
      ar_pullrequests r =
        map pullrequest_entry
          (filter (fun p => (last_segment (pull_branch p) =? ar_id r)%string)
                  [pull "feature/AJ-7" "u1"; pull "AJ-7/fix" "u2"]) /\
      ar_pipelines r =
        kept_pipelines
          (map (pipeline_entry example_env)
             (filter (fun p => (last_segment (run_branch p) =? ar_id r)%string)
                     [run "feature/ABC-1" 4])).
Proof.
  apply (attached_when_last_segment_is_key example_env [issue_ABC_1; issue_AJ_7]).
  - split; reflexivity.
  - exact sample_keys_no_bar.
Defined.

(** X9: a second issue after the first. *)
Lemma new_issue_keeps_other_results_witness :
  exists out r,
    parse_result example_env (map issue_json [issue_ABC_1])
      (map pullrequest_json [pull "feature/AJ-7" "u1"])
      (map pipeline_json [run "feature/ABC-1" 4]) = Ok out /\
    parse_result example_env (map issue_json ([issue_ABC_1] ++ [issue_AJ_7]))
      (map pullrequest_json [pull "feature/AJ-7" "u1"])
      (map pipeline_json [run "feature/ABC-1" 4]) = Ok (out ++ [r]) /\
    ar_id r = identifier issue_AJ_7.
Proof.
  apply (new_issue_keeps_other_results example_env [issue_ABC_1] issue_AJ_7).
  - split; reflexivity.
  - split; reflexivity.
  - exact sample_keys_no_bar.
  - simpl. intros [H|[]]. discriminate H.
Defined.

(** X11 on a run that returns. *)
Lemma output_comes_from_input_witness :
  exists out,
    parse_result example_env [issue_json issue_ABC_1]
      [pullrequest_json (pull "feature/ABC-1" "u1")]
      [pipeline_json (run "feature/ABC-1" 4)] = Ok out /\
    NoDup (map ar_id out).
Proof.
  assert (Hrun :
    parse_result example_env [issue_json issue_ABC_1]
      [pullrequest_json (pull "feature/ABC-1" "u1")]
      [pipeline_json (run "feature/ABC-1" 4)]
    = Ok (aggregate example_env [issue_ABC_1] [pull "feature/ABC-1" "u1"]
            [run "feature/ABC-1" 4]))
    by (vm_compute; reflexivity).
  eexists. split; [exact Hrun|].
  exact (proj1 (output_comes_from_input example_env _ _
                  [pipeline_json (run "feature/ABC-1" 4)] _ eq_refl Hrun)).
Defined.

(** X13 on the sample report: six lines and a section of two. *)
Lemma format_result_output_lines_witness :
  count_char newline (format_result_output [sample_report]) = 8%nat.
Proof.
  apply (format_result_output_lines [sample_report]).
  repeat constructor.
Defined.

(** X14 on the pull requests endpoint. *)
Lemma trailing_slash_dropped_witness :
  bitbucket_request_url "https://api.example/repo" ("pullrequests" ++ "/")
  = bitbucket_request_url "https://api.example/repo" "pullrequests".
Proof.
  apply (trailing_slash_dropped "https://api.example/repo" "pullrequests").
  reflexivity.
Defined.
